(** * recursive-thinking-mcp: the thinking engine of [src/lib.ts]

    A shallow embedding of the engine (insight compressor, prompt generator,
    readiness evaluator, iteration processor) and the properties its
    specification states about it.

    Modelling conventions.
    - A JavaScript string is a sequence of UTF-16 code units.  It is modelled
      as a [string] whose characters are the code units; the alphabet is the
      code units below 256 (ISO-8859-1), on which [toLowerCase], [trim] and
      the regular-expression classes used by the engine are closed and are
      written out in full below.
    - [confidence], [minConfidence] and [temperature] are IEEE-754 binary64
      numbers, as in JavaScript: the primitive type [float], with [NaN] and
      the infinities.  [a >= b] is [b <=? a].
    - [depth], [maxDepth] and [maxIterations] are integer counters; they are
      modelled as [Z], on which [+ 1] and [>=] agree with the binary64
      operations for every integer of magnitude below 2^53.
    - An optional property of a [Partial<ThinkingConfig>] is an [option],
      [None] when the property is absent.
    - [parseFloat] and [Number::toString] are written out with exact
      integer arithmetic: decimal to binary64 conversion rounds to nearest,
      ties to even, and a number prints as its shortest decimal numeral.
    - The tool-call handler of [src/index.ts] is modelled as a function of
      the session map and the request that returns the new map and the
      outcome of the call, a thrown error or the object that the handler
      serialises into its reply; the identifier it generates from the clock
      and the random source is an input. *)

From Stdlib Require Import ZArith NArith String Ascii List Bool Lia PeanoNat.
From Stdlib Require Import DecimalString.
From Stdlib Require Import Floats.PrimFloat Floats.SpecFloat Floats.FloatOps.
From Stdlib Require Floats.FloatAxioms Floats.FloatLemmas Uint63.
Import ListNotations.

#[local] Set Warnings "-inexact-float".
#[local] Open Scope string_scope.

(** ** The pieces of the JavaScript runtime that the engine calls *)

Module JS.

(** Code unit of a character. *)
Definition code (c : ascii) : N := N_of_ascii c.

Definition LF : ascii := ascii_of_N 10.
#[global] Arguments LF : simpl never.

(** [WhiteSpace] and [LineTerminator] code units below 256: TAB, LF, VT, FF,
    CR, SP and NBSP.  This is the set stripped by [trim] and matched by the
    regular-expression class [\s]. *)
Definition isWhiteSpace (c : ascii) : bool :=
  let n := code c in
  ((9 <=? n) && (n <=? 13) || (n =? 32) || (n =? 160))%N.

(** [String.prototype.toLowerCase] on one code unit: the capitals A to Z
    (65 to 90) and the Latin-1 capitals (192 to 222, without the
    multiplication sign 215) move up by 32. *)
Definition lowerChar (c : ascii) : ascii :=
  let n := code c in
  if ((65 <=? n) && (n <=? 90) || (192 <=? n) && (n <=? 222) && negb (n =? 215))%N
  then ascii_of_N (n + 32) else c.

Fixpoint toLowerCase (s : string) : string :=
  match s with
  | EmptyString => EmptyString
  | String c t => String (lowerChar c) (toLowerCase t)
  end.

(** [s.startsWith(k)] *)
Fixpoint startsWith (s k : string) : bool :=
  match k, s with
  | EmptyString, _ => true
  | String _ _, EmptyString => false
  | String a k', String b s' => Ascii.eqb a b && startsWith s' k'
  end.

(** [s.includes(k)]: [k] occurs at some position of [s]. *)
Fixpoint includes (s k : string) : bool :=
  startsWith s k ||
  match s with
  | EmptyString => false
  | String _ t => includes t k
  end.

(** [s.split(sep)] for a one-character separator; the result is never
    empty, and [split sep ""] is [[""]]. *)
Fixpoint split (sep : ascii) (s : string) : list string :=
  match s with
  | EmptyString => [EmptyString]
  | String c t =>
      if Ascii.eqb c sep then EmptyString :: split sep t
      else match split sep t with
           | l :: ls => String c l :: ls
           | [] => [String c EmptyString]
           end
  end.

(** [a.join(sep)] *)
Definition join (sep : string) (a : list string) : string := String.concat sep a.

(** [s.slice(0, n)] *)
Definition slice0 (n : nat) (s : string) : string := substring 0 n s.

Fixpoint trimStart (s : string) : string :=
  match s with
  | EmptyString => EmptyString
  | String c t => if isWhiteSpace c then trimStart t else s
  end.

Fixpoint trimEnd (s : string) : string :=
  match s with
  | EmptyString => EmptyString
  | String c t =>
      match trimEnd t with
      | EmptyString => if isWhiteSpace c then EmptyString else String c EmptyString
      | t' => String c t'
      end
  end.

Definition trim (s : string) : string := trimEnd (trimStart s).

(** [ToBoolean] of a string: only the empty string is falsy. *)
Definition truthy (s : string) : bool :=
  match s with EmptyString => false | String _ _ => true end.

Fixpoint takeWhile (p : ascii -> bool) (s : string) : string :=
  match s with
  | EmptyString => EmptyString
  | String c t => if p c then String c (takeWhile p t) else EmptyString
  end.

Fixpoint dropWhile (p : ascii -> bool) (s : string) : string :=
  match s with
  | EmptyString => EmptyString
  | String c t => if p c then dropWhile p t else s
  end.

Definition isDigit (c : ascii) : bool := ((48 <=? code c) && (code c <=? 57))%N.

Definition digitValue (c : ascii) : Z := Z.of_N (code c) - 48.

(** Value of a run of decimal digits, most significant first. *)
Definition digitsValue (s : string) : Z :=
  fold_left (fun acc c => 10 * acc + digitValue c)%Z (list_ascii_of_string s) 0%Z.

(** The binary64 number nearest to [m / 10^k] (ties to even), for [0 <= m]. *)
Definition decimalToNumber (m : Z) (k : nat) : float :=
  match m with
  | Zpos p =>
      SF2Prim (SFdiv prec emax (S754_finite false p 0)
                                (S754_finite false (Z.to_pos (10 ^ Z.of_nat k)) 0))
  | _ => zero
  end.

(** [parseFloat] on a string that starts with digits or a dot (the only
    strings the engine passes to it): the longest prefix of the form
    [digits], [digits.digits], [digits.] or [.digits] is converted, and the
    result is [NaN] when that prefix holds no digit. *)
Definition parseFloat (s : string) : float :=
  let ip := takeWhile isDigit s in
  let fp := match dropWhile isDigit s with
            | String "." t => takeWhile isDigit t
            | _ => EmptyString
            end in
  match ip ++ fp with
  | EmptyString => nan
  | ds => decimalToNumber (digitsValue ds) (String.length fp)
  end.

(** Decimal numeral of an integer, as [Number::toString] prints the
    integers below 10^21. *)
Definition integerToString (z : Z) : string := NilZero.string_of_int (Z.to_int z).

(** *** [Number::toString] (radix 10) *)

(** The binary64 number nearest to [s * 10^p], for [0 < s]. *)
Definition roundDecimal (s p : Z) : spec_float :=
  if (0 <=? p)%Z then binary_normalize prec emax (s * 10 ^ p) 0 false
  else SFdiv prec emax (S754_finite false (Z.to_pos s) 0)
                       (S754_finite false (Z.to_pos (10 ^ (- p))) 0).

(** Least [d >= 1] with [q < 10^d]: the number of decimal digits of [q]. *)
Fixpoint countDigits (fuel : nat) (q : Z) (d : Z) : Z :=
  match fuel with
  | O => d
  | S fuel' => if (q <? 10 ^ d)%Z then d else countDigits fuel' q (d + 1)%Z
  end.

(** Least [j >= 1] with [den <= num * 10^j]. *)
Fixpoint countLeadingZeros (fuel : nat) (num den : Z) (j : Z) : Z :=
  match fuel with
  | O => j
  | S fuel' =>
      if (den <=? num * 10 ^ j)%Z then j else countLeadingZeros fuel' num den (j + 1)%Z
  end.

(** The integer [n] with [10^(n-1) <= num/den < 10^n]. *)
Definition decimalExponent (num den : Z) : Z :=
  if (den <=? num)%Z then countDigits 400 (num / den) 1
  else (1 - countLeadingZeros 400 num den 1)%Z.

(** The [k]-digit candidate for the value [num/den = m * 2^e]: the digits
    [s] and exponent [n] such that [s * 10^(n-k)] converts back to the
    number, the nearest one if there are two, the even one on a tie. *)
Definition candidate (x : spec_float) (num den n k : Z) : option (Z * Z) :=
  let p := (n - k)%Z in
  let snum := if (0 <=? p)%Z then num else (num * 10 ^ (- p))%Z in
  let sden := if (0 <=? p)%Z then (den * 10 ^ p)%Z else den in
  let lo := (snum / sden)%Z in
  let r := (snum - lo * sden)%Z in
  let hi := (lo + 1)%Z in
  let okLo := (0 <? lo)%Z && SFeqb (roundDecimal lo p) x in
  let okHi := SFeqb (roundDecimal hi p) x in
  let pickLo := Some (lo, n) in
  let pickHi := if (hi =? 10 ^ k)%Z then Some (10 ^ (k - 1), n + 1)%Z else Some (hi, n) in
  match okLo, okHi with
  | true, true =>
      match (2 * r ?= sden)%Z with
      | Lt => pickLo
      | Gt => pickHi
      | Eq => if Z.even lo then pickLo else pickHi
      end
  | true, false => pickLo
  | false, true => pickHi
  | false, false => None
  end.

(** The shortest digits that identify the number: the first [k] from 1 up
    that has a candidate (17 digits always suffice). *)
Fixpoint shortest (fuel : nat) (x : spec_float) (num den n k : Z) : Z * Z :=
  match fuel with
  | O => (0, n)%Z
  | S fuel' =>
      match candidate x num den n k with
      | Some sn => sn
      | None => shortest fuel' x num den n (k + 1)%Z
      end
  end.

Definition zeros (n : Z) : string := string_of_list_ascii (repeat "0"%char (Z.to_nat n)).

(** Steps 5 to 9 of [Number::toString]: [digits] are the [k] digits of [s],
    and the value is [0.digits * 10^n]. *)
Definition formatDecimal (digits : string) (n : Z) : string :=
  let k := Z.of_nat (String.length digits) in
  if ((k <=? n) && (n <=? 21))%Z then digits ++ zeros (n - k)
  else if ((0 <? n) && (n <=? 21))%Z then
    substring 0 (Z.to_nat n) digits ++ "." ++
    substring (Z.to_nat n) (Z.to_nat (k - n)) digits
  else if ((-6 <? n) && (n <=? 0))%Z then "0." ++ zeros (- n) ++ digits
  else
    let e := (n - 1)%Z in
    let mant := if (k =? 1)%Z then digits
                else substring 0 1 digits ++ "." ++ substring 1 (Z.to_nat (k - 1)) digits in
    mant ++ "e" ++ (if (e <? 0)%Z then "-" else "+") ++ integerToString (Z.abs e).

Definition numberToString (x : float) : string :=
  match Prim2SF x with
  | S754_nan => "NaN"
  | S754_zero _ => "0"
  | S754_infinity s => (if s then "-" else "") ++ "Infinity"
  | S754_finite s m e =>
      let num := if (0 <=? e)%Z then (Zpos m * 2 ^ e)%Z else Zpos m in
      let den := if (0 <=? e)%Z then 1%Z else (2 ^ (- e))%Z in
      let n := decimalExponent num den in
      let '(d, n') := shortest 17 (S754_finite false m e) num den n 1 in
      (if s then "-" else "") ++ formatDecimal (integerToString d) n'
  end.

End JS.

(** ** The engine, [src/lib.ts] *)

Module Engine.
Import JS.

Definition NL : string := String LF EmptyString.
Definition DQ : string := String (ascii_of_N 34) EmptyString.

Record ThinkingState := mkState {
  depth : Z;
  confidence : float;
  iterations : list string;
  lastResult : string;
  isComplete : bool
}.

Record ThinkingConfig := mkConfig {
  maxDepth : Z;
  minConfidence : float;
  maxIterations : Z;
  temperature : float
}.

(** [Partial<ThinkingConfig>]: every property may be absent. *)
Record PartialThinkingConfig := mkPartial {
  optMaxDepth : option Z;
  optMinConfidence : option float;
  optMaxIterations : option Z;
  optTemperature : option float
}.

Definition DEFAULT_CONFIG : ThinkingConfig :=
  {| maxDepth := 5; minConfidence := 0.85; maxIterations := 8; temperature := 0.7 |}.

(** The default argument [config = {}]. *)
Definition emptyConfig : PartialThinkingConfig := mkPartial None None None None.

(** [{ ...base, ...config }] *)
Definition spread (base : ThinkingConfig) (config : PartialThinkingConfig) : ThinkingConfig :=
  {| maxDepth := match optMaxDepth config with Some v => v | None => maxDepth base end;
     minConfidence :=
       match optMinConfidence config with Some v => v | None => minConfidence base end;
     maxIterations :=
       match optMaxIterations config with Some v => v | None => maxIterations base end;
     temperature :=
       match optTemperature config with Some v => v | None => temperature base end |}.

Definition keywords : list string :=
  [ "therefore"; "conclusion"; "solution"; "approach";
    "error"; "issue"; "fixed"; "implement" ].

(** [keywords.some((kw) => line.toLowerCase().includes(kw))] *)
Definition hasKeyword (kws : list string) (line : string) : bool :=
  existsb (fun kw => includes (toLowerCase line) kw) kws.

Definition compressInsights (text : string) : string :=
  let lines := filter (fun l => truthy (trim l)) (split LF text) in
  slice0 500 (join NL (filter (hasKeyword keywords) lines)).

Definition generateThinkingPrompt
    (originalTask : string) (state : ThinkingState) (config : ThinkingConfig) : string :=
  if (depth state =? 0)%Z then
    "Analyze task: " ++ DQ ++ slice0 200 originalTask ++ DQ ++ NL ++
    "Provide: [approach][potential_issues][confidence_0-1]" ++ NL ++
    "Format: Single paragraph, minimal words."
  else
    let previousInsights := compressInsights (lastResult state) in
    "Refine solution (depth " ++ integerToString (depth state) ++ "/" ++
      integerToString (maxDepth config) ++ "):" ++ NL ++
    "Task: " ++ DQ ++ slice0 100 originalTask ++ "..." ++ DQ ++ NL ++
    "Previous: " ++ DQ ++ previousInsights ++ DQ ++ NL ++
    "Current confidence: " ++ numberToString (confidence state) ++ NL ++
    "Provide: [refinement][what_to_improve][new_confidence]" ++ NL ++
    "Format: Concise, action-oriented.".

Definition prodIndicators : list string :=
  [ "implement"; "complete"; "final"; "solution"; "ready";
    "tested"; "handle"; "error"; "edge case"; "deploy" ].

Definition isProductionReady (result : string) (confidence : float) : bool :=
  let hasProdKeywords := hasKeyword prodIndicators result in
  (0.85 <=? confidence)%float && hasProdKeywords && (50 <? String.length result)%nat.

Record ThinkResult := mkThink {
  result : string;
  resultIterations : Z;
  resultConfidence : float
}.

(** The value the promise of [recursiveThink] resolves to. *)
Definition recursiveThink (task : string) (config : PartialThinkingConfig) : ThinkResult :=
  let finalConfig := spread DEFAULT_CONFIG config in
  let state := {| depth := 0; confidence := 0; iterations := [];
                  lastResult := EmptyString; isComplete := false |} in
  {| result := generateThinkingPrompt task state finalConfig;
     resultIterations := 0;
     resultConfidence := 0 |}.

(** *** The regular expression [/confidence[:\s]*([0-9.]+)/i] *)

(** [Canonicalize] of the [i] flag: the upper-case form of a code unit.
    The letters a to z (97 to 122) and the Latin-1 small letters (224 to
    254, without the division sign 247) move down by 32; the two small
    letters whose capitals lie above 255 (181 and 255) are left in place,
    which keeps them distinct from every other code unit, as their capitals
    are. *)
Definition canonicalize (c : ascii) : ascii :=
  let n := code c in
  if ((97 <=? n) && (n <=? 122) || (224 <=? n) && (n <=? 254) && negb (n =? 247))%N
  then ascii_of_N (n - 32) else c.

(** The class [[:\s]]. *)
Definition isSeparator (c : ascii) : bool := Ascii.eqb c ":" || isWhiteSpace c.

(** The class [[0-9.]]. *)
Definition isDigitOrDot (c : ascii) : bool := isDigit c || Ascii.eqb c ".".

(** A literal matched without regard to case at the start of [s]; the rest
    of [s] on success. *)
Fixpoint matchLiteral (pat s : string) : option string :=
  match pat, s with
  | EmptyString, _ => Some s
  | String _ _, EmptyString => None
  | String p pat', String c s' =>
      if Ascii.eqb (canonicalize p) (canonicalize c) then matchLiteral pat' s' else None
  end.

(** The expression anchored at the start of [s]; the capture group on
    success.  The two classes are disjoint, so the greedy [[:\s]*] takes the
    whole run of separators and no backtracking into it can succeed; the
    greedy [[0-9.]+] takes the whole run that follows, which must not be
    empty. *)
Definition matchHere (s : string) : option string :=
  match matchLiteral "confidence" s with
  | None => None
  | Some rest =>
      match takeWhile isDigitOrDot (dropWhile isSeparator rest) with
      | EmptyString => None
      | capture => Some capture
      end
  end.

(** [agentResponse.match(re)]: the leftmost position at which the expression
    matches; [Some capture] stands for the match array and its group 1,
    [None] for [null]. *)
Fixpoint confidenceMatch (s : string) : option string :=
  match matchHere s with
  | Some capture => Some capture
  | None =>
      match s with
      | EmptyString => None
      | String _ t => confidenceMatch t
      end
  end.

(** [confidenceMatch ? parseFloat(confidenceMatch[1]) : 0.5] *)
Definition parseConfidence (agentResponse : string) : float :=
  match confidenceMatch agentResponse with
  | Some capture => parseFloat capture
  | None => 0.5
  end.

Record IterationResult := mkResult {
  nextPrompt : option string;
  state : ThinkingState
}.

(** [newState.isComplete = true] *)
Definition markComplete (s : ThinkingState) : ThinkingState :=
  {| depth := depth s; confidence := confidence s; iterations := iterations s;
     lastResult := lastResult s; isComplete := true |}.

(** [previousState.depth + 1] is written as the integer sum.  The code adds
    in binary64, which gives the integer sum for every depth from -2^53 up
    to 2^53 - 1, and so for every depth a session reaches, where [depth]
    counts the entries of [iterations]; from 2^53 on the binary64 sum is no
    longer [depth + 1]. *)
Definition processIteration
    (originalTask agentResponse : string) (previousState : ThinkingState)
    (config : PartialThinkingConfig) : IterationResult :=
  let finalConfig := spread DEFAULT_CONFIG config in
  let confidence := parseConfidence agentResponse in
  let newState :=
    {| depth := depth previousState + 1;
       confidence := confidence;
       iterations := iterations previousState ++ [agentResponse];
       lastResult := agentResponse;
       isComplete := false |} in
  if isProductionReady agentResponse confidence
     || (maxDepth finalConfig <=? depth newState)%Z
     || (minConfidence finalConfig <=? confidence)%float
  then {| nextPrompt := None; state := markComplete newState |}
  else {| nextPrompt := Some (generateThinkingPrompt originalTask newState finalConfig);
          state := newState |}.

(** The state a session starts from. *)
Definition initialState : ThinkingState :=
  {| depth := 0; confidence := 0; iterations := []; lastResult := EmptyString;
     isComplete := false |}.

End Engine.


(** ** What the specification talks about *)

Module Spec.
Import JS Engine.

(** [k] occurs in [s]. *)
Definition Substring (k s : string) : Prop := exists pre post, s = pre ++ k ++ post.

(** [p] is an initial segment of [s]. *)
Definition Prefix (p s : string) : Prop := exists rest, s = p ++ rest.

(** Every character of [s] satisfies [p]. *)
Fixpoint allChars (p : ascii -> bool) (s : string) : bool :=
  match s with
  | EmptyString => true
  | String c t => p c && allChars p t
  end.

(** [s] does not begin with a character that satisfies [p]. *)
Definition headFails (p : ascii -> bool) (s : string) : bool :=
  match s with
  | EmptyString => true
  | String c _ => negb (p c)
  end.

(** A line that is empty or holds white space only. *)
Definition Blank (l : string) : Prop := allChars isWhiteSpace l = true.

Definition noLineFeed (l : string) : bool := allChars (fun c => negb (Ascii.eqb c LF)) l.

(** [ls] are the lines of [text]: joined by line feeds they give back the
    text, and no line holds a line feed. *)
Definition Lines (text : string) (ls : list string) : Prop :=
  ls <> [] /\ join NL ls = text /\ Forall (fun l => noLineFeed l = true) ls.

(** [kept] are exactly the elements of [ls] that satisfy [P], in order. *)
Inductive Select (P : string -> Prop) : list string -> list string -> Prop :=
| Select_nil : Select P [] []
| Select_keep l ls kept : P l -> Select P ls kept -> Select P (l :: ls) (l :: kept)
| Select_drop l ls kept : ~ P l -> Select P ls kept -> Select P (l :: ls) kept.

(** [out] is [s] cut to at most [n] characters. *)
Definition Truncated (n : nat) (s out : string) : Prop :=
  Prefix out s /\ String.length out = Nat.min n (String.length s).

(** The lower-cased line holds one of the keywords. *)
Definition MentionsOneOf (kws : list string) (l : string) : Prop :=
  exists kw, In kw kws /\ Substring kw (toLowerCase l).

Definition insightKeywords : list string :=
  [ "therefore"; "conclusion"; "solution"; "approach";
    "error"; "issue"; "fixed"; "implement" ].

(** The reference definition of the insight compressor, in the words of the
    specification: split into lines, discard the blank lines, keep exactly
    the lines that mention a keyword, join them with line feeds, cut to at
    most 500 characters. *)
Definition CompressSpec (text out : string) : Prop :=
  exists ls kept,
    Lines text ls /\
    Select (fun l => ~ Blank l /\ MentionsOneOf insightKeywords l) ls kept /\
    Truncated 500 (join NL kept) out.

(** The stopping test of one round. *)
Definition stops (agentResponse : string) (previousState : ThinkingState)
    (config : PartialThinkingConfig) : bool :=
  let finalConfig := spread DEFAULT_CONFIG config in
  let confidence := parseConfidence agentResponse in
  isProductionReady agentResponse confidence
  || (maxDepth finalConfig <=? depth previousState + 1)%Z
  || (minConfidence finalConfig <=? confidence)%float.

(** One call of the session: the task, the response and the configuration
    the caller passes. *)
Record Call := mkCall {
  callTask : string;
  callResponse : string;
  callConfig : PartialThinkingConfig
}.

(** Successive calls, each on the state the previous one returned. *)
Definition runCalls (calls : list Call) (start : ThinkingState) : ThinkingState :=
  fold_left
    (fun st c => state (processIteration (callTask c) (callResponse c) st (callConfig c)))
    calls start.

(** String with every character upper-cased as the [i] flag does. *)
Fixpoint canonical (s : string) : string :=
  match s with
  | EmptyString => EmptyString
  | String c t => String (canonicalize c) (canonical t)
  end.

(** The expression matches at the start of [s] and captures [capture]: a
    spelling of "confidence" in any letter case, separators, then the
    capture, a non-empty run of digits and dots that is not continued. *)
Definition MatchesHere (s capture : string) : Prop :=
  exists token seps rest,
    s = token ++ seps ++ capture ++ rest /\
    canonical token = "CONFIDENCE" /\
    allChars isSeparator seps = true /\
    capture <> EmptyString /\
    allChars isDigitOrDot capture = true /\
    headFails isDigitOrDot rest = true.

(** The leftmost match of the expression in [r] starts after [pre] and
    captures [capture]. *)
Definition FirstMatch (r pre capture : string) : Prop :=
  exists s,
    r = pre ++ s /\ MatchesHere s capture /\
    forall p1 p2 c, pre = p1 ++ p2 -> p2 <> EmptyString -> ~ MatchesHere (p2 ++ s) c.

(** The expression matches nowhere in [r]. *)
Definition NoMatch (r : string) : Prop :=
  forall pre s c, r = pre ++ s -> ~ MatchesHere s c.

End Spec.

(** ** The tool-call handler, [src/index.ts] *)

Module Server.
Import JS Engine.

(** [const sessions = new Map<string, ThinkingState>()].  The handler only
    calls [get] and [set], so the map is modelled by its lookup function. *)
Definition Sessions : Type := string -> option ThinkingState.

(** [new Map()] *)
Definition noSessions : Sessions := fun _ => None.

(** [sessions.get(key)] *)
Definition sessionsGet (sessions : Sessions) (key : string) : option ThinkingState :=
  sessions key.

(** [sessions.set(key, value)] *)
Definition sessionsSet (sessions : Sessions) (key : string) (value : ThinkingState)
  : Sessions :=
  fun k => if String.eqb k key then Some value else sessions k.

(** [request.params.arguments]; an optional property is an [option]. *)
Record ToolArguments := mkArguments {
  action : string;
  task : option string;
  response : option string;
  sessionId : option string;
  config : option PartialThinkingConfig
}.

(** [request.params] *)
Record CallToolRequest := mkRequest {
  name : string;
  arguments : ToolArguments
}.

(** The object the handler serialises with [JSON.stringify] into the text of
    its reply; one constructor for each of the three object literals, with
    their properties in order. *)
Inductive Reply : Type :=
| Started (sessionId prompt : string) (depth : Z) (isComplete : bool)
    (instruction : string)
| Finished (sessionId : string) (isComplete : bool) (depth : Z) (confidence : float)
    (iterations : list string) (finalSolution instruction : string)
| Continuing (sessionId prompt : string) (depth : Z) (confidence : float)
    (isComplete : bool) (instruction : string).

(** What a call of the handler ends with: [throw new Error(message)] or
    [return]. *)
Inductive Outcome : Type :=
| Threw (message : string)
| Returned (reply : Reply).

(** [a || b] on strings: [a] unless it is the empty string. *)
Definition orElse (a b : string) : string := if truthy a then a else b.

(** [!s] for an optional string: [undefined] and the empty string are falsy. *)
Definition missing (s : option string) : bool :=
  match s with
  | None => true
  | Some v => negb (truthy v)
  end.

(** The default parameter [config = {}] of the two engine functions. *)
Definition configOrDefault (config : option PartialThinkingConfig) : PartialThinkingConfig :=
  match config with
  | Some c => c
  | None => emptyConfig
  end.

(** The handler of [CallToolRequestSchema].  [generated] is the value of
    [`session_${Date.now()}_${Math.random().toString(36).slice(2, 8)}`] at
    this call.  The result is the session map after the call and the way
    the call ended. *)
Definition handleCallTool
    (generated : string) (request : CallToolRequest) (sessions : Sessions)
  : Sessions * Outcome :=
  if negb (String.eqb (name request) "recursive_thinking") then
    (sessions, Threw ("Unknown tool: " ++ name request))
  else
    let args := arguments request in
    let sid := match sessionId args with
               | Some s => orElse s generated
               | None => generated
               end in
    if String.eqb (action args) "start" then
      match task args with
      | None => (sessions, Threw "Task is required for action=start")
      | Some task =>
          if negb (truthy task) || (String.length (trim task) =? 0)%nat then
            (sessions, Threw "Task is required for action=start")
          else
            let initialState :=
              {| depth := 0; confidence := 0; iterations := [];
                 lastResult := EmptyString; isComplete := false |} in
            let sessions := sessionsSet sessions sid initialState in
            let result := result (recursiveThink task (configOrDefault (config args))) in
            (sessions,
             Returned
               (Started sid result 0 false
                  "Provide your response to this prompt, then call again with action=iterate"))
      end
    else if String.eqb (action args) "iterate" then
      match sessionsGet sessions sid with
      | None =>
          (sessions,
           Threw ("Session " ++ sid ++ " not found. Start with action=start first."))
      | Some state =>
          match response args with
          | None => (sessions, Threw "Response is required for action=iterate")
          | Some response =>
              if negb (truthy response) then
                (sessions, Threw "Response is required for action=iterate")
              else
                let originalTask :=
                  match iterations state with
                  | first :: _ => orElse first response
                  | [] => response
                  end in
                let r := processIteration originalTask response state
                           (configOrDefault (config args)) in
                let newState := Engine.state r in
                let sessions := sessionsSet sessions sid newState in
                match nextPrompt r with
                | Some prompt =>
                    if negb (truthy prompt) || isComplete newState then
                      (sessions,
                       Returned
                         (Finished sid true (depth newState) (confidence newState)
                            (iterations newState) (lastResult newState)
                            "Production-ready solution achieved. Review iterations for full context."))
                    else
                      (sessions,
                       Returned
                         (Continuing sid prompt (depth newState) (confidence newState) false
                            "Continue iterating until isComplete=true"))
                | None =>
                    (sessions,
                     Returned
                       (Finished sid true (depth newState) (confidence newState)
                          (iterations newState) (lastResult newState)
                          "Production-ready solution achieved. Review iterations for full context."))
                end
          end
      end
    else
      (sessions,
       Threw ("Invalid action: " ++ action args ++ ". Use 'start' or 'iterate'")).

(** *** Sequences of calls *)

(** One call as the server receives it: the identifier generated for it and
    the request. *)
Definition Incoming : Type := (string * CallToolRequest)%type.

(** The session map after the calls, handled one after the other. *)
Definition handleAll (calls : list Incoming) (sessions : Sessions) : Sessions :=
  fold_left (fun m c => fst (handleCallTool (fst c) (snd c) m)) calls sessions.

(** The session a request addresses. *)
Definition addressed (generated : string) (request : CallToolRequest) : string :=
  match sessionId (arguments request) with
  | Some s => orElse s generated
  | None => generated
  end.

(** What every stored state satisfies: [depth] counts the recorded
    responses, none of them is empty, and [lastResult] is the latest one. *)
Definition Consistent (st : ThinkingState) : Prop :=
  depth st = Z.of_nat (length (iterations st)) /\
  Forall (fun r => r <> EmptyString) (iterations st) /\
  lastResult st = last (iterations st) EmptyString.

End Server.

(** ** Numbers read from a capture *)

Module Numbers.
Import JS Engine Spec.

(** A number that is neither [NaN] nor negative. *)
Definition nonNegative (x : spec_float) : bool :=
  match x with
  | S754_zero false | S754_infinity false | S754_finite false _ _ => true
  | _ => false
  end.

(** [s] begins with a decimal literal: a digit, or a dot and a digit. *)
Definition startsWithNumber (s : string) : bool :=
  match s with
  | String c t =>
      isDigit c ||
      (Ascii.eqb c "." && match t with String d _ => isDigit d | EmptyString => false end)
  | EmptyString => false
  end.

(** No character of [s] is a digit or a dot. *)
Definition noDigitOrDot (s : string) : bool :=
  allChars (fun c => negb (isDigitOrDot c)) s.

End Numbers.

(** ** What is said about the handler *)

Module ServerSpec.
Import JS Engine Spec Server.

(** A well-formed [start] request for the session [sid]. *)
Definition startRequest (sid task : string) (cfg : option PartialThinkingConfig)
  : CallToolRequest :=
  mkRequest "recursive_thinking" (mkArguments "start" (Some task) None (Some sid) cfg).

(** A well-formed [iterate] request for the session [sid]. *)
Definition iterateRequest (sid resp : string) (cfg : option PartialThinkingConfig)
  : CallToolRequest :=
  mkRequest "recursive_thinking" (mkArguments "iterate" None (Some resp) (Some sid) cfg).

(** One later turn of a session: the identifier generated for the call,
    the response and the configuration it carries. *)
Record Turn := mkTurn {
  turnGenerated : string;
  turnResponse : string;
  turnConfig : option PartialThinkingConfig
}.

(** Every stored state is consistent. *)
Definition AllConsistent (sessions : Sessions) : Prop :=
  forall key st, sessionsGet sessions key = Some st -> Consistent st.

(** The [iterate] call of a turn, and the engine call it leads to. *)
Definition toIncoming (sid : string) (t : Turn) : Incoming :=
  (turnGenerated t, iterateRequest sid (turnResponse t) (turnConfig t)).

Definition toCall (task : string) (t : Turn) : Call :=
  mkCall task (turnResponse t) (configOrDefault (turnConfig t)).

(** The handler, case by case. *)
Inductive Handled (g : string) (req : CallToolRequest) (m : Sessions)
  : Sessions * Outcome -> Prop :=
| H_unknown_tool :
    name req <> "recursive_thinking" ->
    Handled g req m (m, Threw ("Unknown tool: " ++ name req))
| H_no_task :
    name req = "recursive_thinking" -> action (arguments req) = "start" ->
    (task (arguments req) = None \/ exists t, task (arguments req) = Some t /\ Blank t) ->
    Handled g req m (m, Threw "Task is required for action=start")
| H_started t :
    name req = "recursive_thinking" -> action (arguments req) = "start" ->
    task (arguments req) = Some t -> ~ Blank t ->
    Handled g req m
      (sessionsSet m (addressed g req) initialState,
       Returned (Started (addressed g req)
                   (result (recursiveThink t (configOrDefault (config (arguments req)))))
                   0 false
                   "Provide your response to this prompt, then call again with action=iterate"))
| H_no_session :
    name req = "recursive_thinking" -> action (arguments req) = "iterate" ->
    sessionsGet m (addressed g req) = None ->
    Handled g req m
      (m, Threw ("Session " ++ addressed g req ++ " not found. Start with action=start first."))
| H_no_response st :
    name req = "recursive_thinking" -> action (arguments req) = "iterate" ->
    sessionsGet m (addressed g req) = Some st ->
    missing (response (arguments req)) = true ->
    Handled g req m (m, Threw "Response is required for action=iterate")
| H_finished st resp :
    name req = "recursive_thinking" -> action (arguments req) = "iterate" ->
    sessionsGet m (addressed g req) = Some st ->
    response (arguments req) = Some resp -> resp <> "" ->
    let r := processIteration (match iterations st with
                               | first :: _ => orElse first resp
                               | [] => resp
                               end)
               resp st (configOrDefault (config (arguments req))) in
    isComplete (state r) = true ->
    Handled g req m
      (sessionsSet m (addressed g req) (state r),
       Returned (Finished (addressed g req) true (depth (state r)) (confidence (state r))
                   (iterations (state r)) (lastResult (state r))
                   "Production-ready solution achieved. Review iterations for full context."))
| H_continuing st resp prompt :
    name req = "recursive_thinking" -> action (arguments req) = "iterate" ->
    sessionsGet m (addressed g req) = Some st ->
    response (arguments req) = Some resp -> resp <> "" ->
    let r := processIteration (match iterations st with
                               | first :: _ => orElse first resp
                               | [] => resp
                               end)
               resp st (configOrDefault (config (arguments req))) in
    isComplete (state r) = false ->
    nextPrompt r = Some prompt -> prompt <> "" ->
    Handled g req m
      (sessionsSet m (addressed g req) (state r),
       Returned (Continuing (addressed g req) prompt (depth (state r)) (confidence (state r))
                   false "Continue iterating until isComplete=true"))
| H_invalid_action :
    name req = "recursive_thinking" ->
    action (arguments req) <> "start" -> action (arguments req) <> "iterate" ->
    Handled g req m
      (m, Threw ("Invalid action: " ++ action (arguments req) ++ ". Use 'start' or 'iterate'")).

End ServerSpec.

(** ** Facts about strings *)

Module StringFacts.
Import JS Engine Spec.

Lemma append_nil_r (s : string) : s ++ "" = s.
Proof. induction s as [|c s IH]; cbn; [reflexivity | now rewrite IH]. Qed.

Lemma append_assoc (a b c : string) : (a ++ b) ++ c = a ++ b ++ c.
Proof. induction a as [|x a IH]; cbn; [reflexivity | now rewrite IH]. Qed.

Lemma length_append (a b : string) :
  String.length (a ++ b) = String.length a + String.length b.
Proof. induction a as [|x a IH]; cbn; [reflexivity | now rewrite IH]. Qed.

Lemma append_inv_head (a b c : string) : a ++ b = a ++ c -> b = c.
Proof. induction a as [|x a IH]; cbn; [auto | intros [= H]; auto]. Qed.

Lemma startsWith_spec (s k : string) : startsWith s k = true <-> Prefix k s.
Proof.
  revert s; induction k as [|a k IH]; intros s.
  - split; [intros _; now exists s | now destruct s].
  - destruct s as [|b s]; cbn.
    + split; [discriminate | intros [rest H]; discriminate H].
    + rewrite andb_true_iff, IH, Ascii.eqb_eq. split.
      * intros [-> [rest ->]]. now exists rest.
      * intros [rest [= -> ->]]. split; [reflexivity | now exists rest].
Qed.

Lemma includes_spec (s k : string) : includes s k = true <-> Substring k s.
Proof.
  induction s as [|c s IH]; cbn [includes]; rewrite orb_true_iff, startsWith_spec.
  - split.
    + intros [[rest H] | H]; [|discriminate]. now exists "", rest.
    + intros [pre [post H]]. left. destruct pre; [now exists post | discriminate].
  - rewrite IH. split.
    + intros [[rest H] | [pre [post H]]].
      * now exists "", rest.
      * exists (String c pre), post. cbn. now rewrite H.
    + intros [pre [post H]]. destruct pre as [|x pre]; cbn in H.
      * left. now exists post.
      * right. injection H as -> ->. now exists pre, post.
Qed.

Lemma Substring_append (k pre post : string) : Substring k (pre ++ k ++ post).
Proof. now exists pre, post. Qed.

Lemma Substring_right (k a b : string) : Substring k b -> Substring k (a ++ b).
Proof.
  intros [pre [post ->]]. exists (a ++ pre), post. now rewrite append_assoc.
Qed.

Lemma Substring_left (k a b : string) : Substring k a -> Substring k (a ++ b).
Proof.
  intros [pre [post ->]]. exists pre, (post ++ b). now rewrite !append_assoc.
Qed.

Lemma Substring_refl (k : string) : Substring k k.
Proof. exists "", "". cbn. now rewrite append_nil_r. Qed.

Lemma allChars_append (p : ascii -> bool) (a b : string) :
  allChars p (a ++ b) = allChars p a && allChars p b.
Proof. induction a as [|x a IH]; cbn; [reflexivity | now rewrite IH, andb_assoc]. Qed.

Lemma slice0_prefix (n : nat) (s : string) : Prefix (slice0 n s) s.
Proof.
  unfold slice0. revert s; induction n as [|n IH]; intros s.
  - exists s. now destruct s.
  - destruct s as [|c s]; cbn.
    + now exists "".
    + destruct (IH s) as [rest H]. exists rest. cbn. now rewrite <- H.
Qed.

Lemma slice0_length (n : nat) (s : string) :
  String.length (slice0 n s) = Nat.min n (String.length s).
Proof.
  unfold slice0. revert s; induction n as [|n IH]; intros s.
  - now destruct s.
  - destruct s as [|c s]; cbn; [reflexivity | now rewrite IH].
Qed.

Lemma slice0_Truncated (n : nat) (s : string) : Truncated n s (slice0 n s).
Proof. split; [apply slice0_prefix | apply slice0_length]. Qed.

Lemma Prefix_same_length (a b s : string) :
  Prefix a s -> Prefix b s -> String.length a = String.length b -> a = b.
Proof.
  revert b s; induction a as [|x a IH]; intros b s [ra Ha] [rb Hb] Hl.
  - destruct b; [reflexivity | discriminate].
  - destruct b as [|y b]; [discriminate|].
    subst s. cbn in Hb. injection Hb as -> Hb. f_equal.
    apply (IH b (a ++ ra)); [now exists ra | now exists rb | now injection Hl].
Qed.

Lemma Truncated_unique (n : nat) (s a b : string) :
  Truncated n s a -> Truncated n s b -> a = b.
Proof.
  intros [Pa La] [Pb Lb]. apply (Prefix_same_length a b s); congruence.
Qed.

(** *** Lines *)

Lemma split_not_nil (sep : ascii) (s : string) : split sep s <> [].
Proof.
  induction s as [|c s IH]; cbn; [discriminate|].
  destruct (Ascii.eqb c sep); [discriminate|].
  destruct (split sep s); discriminate.
Qed.

Lemma join_cons (sep x : string) (y : string) (ys : list string) :
  join sep (x :: y :: ys) = x ++ sep ++ join sep (y :: ys).
Proof. reflexivity. Qed.

Lemma join_split (s : string) : join NL (split LF s) = s.
Proof.
  induction s as [|c s IH]; [reflexivity|].
  cbn [split]. destruct (Ascii.eqb_spec c LF) as [->|Hc].
  - pose proof (split_not_nil LF s) as Hn.
    destruct (split LF s) as [|l ls]; [contradiction|].
    rewrite join_cons, IH. reflexivity.
  - pose proof (split_not_nil LF s) as Hn.
    destruct (split LF s) as [|l ls]; [contradiction|].
    rewrite <- IH. destruct ls; reflexivity.
Qed.

Lemma split_noLineFeed (s : string) : Forall (fun l => noLineFeed l = true) (split LF s).
Proof.
  induction s as [|c s IH]; cbn [split].
  - now constructor.
  - destruct (Ascii.eqb_spec c LF) as [->|Hc].
    + now constructor.
    + apply Ascii.eqb_neq in Hc.
      destruct (split LF s) as [|l ls].
      * constructor; [|constructor]. unfold noLineFeed. cbn. now rewrite Hc.
      * inversion IH as [|? ? Hl Hls]; subst. constructor; [|assumption].
        unfold noLineFeed in *. cbn. now rewrite Hc.
Qed.

Lemma split_line (l : string) : noLineFeed l = true -> split LF l = [l].
Proof.
  unfold noLineFeed. induction l as [|c l IH]; cbn; [reflexivity|].
  intros [Hc Hl]%andb_true_iff. rewrite (IH Hl).
  now apply negb_true_iff in Hc as ->.
Qed.

Lemma split_line_rest (l rest : string) :
  noLineFeed l = true -> split LF (l ++ NL ++ rest) = l :: split LF rest.
Proof.
  unfold noLineFeed. induction l as [|c l IH]; cbn.
  - reflexivity.
  - intros [Hc Hl]%andb_true_iff. cbn in IH. rewrite (IH Hl).
    now apply negb_true_iff in Hc as ->.
Qed.

Lemma split_join (ls : list string) :
  ls <> [] -> Forall (fun l => noLineFeed l = true) ls -> split LF (join NL ls) = ls.
Proof.
  induction ls as [|l ls IH]; [contradiction|].
  intros _ Hall. inversion Hall as [|? ? Hl Hls]; subst.
  destruct ls as [|l' ls].
  - now apply split_line.
  - rewrite join_cons, split_line_rest by assumption.
    f_equal. apply IH; [discriminate | assumption].
Qed.

Lemma Lines_split (text : string) : Lines text (split LF text).
Proof.
  repeat split; [apply split_not_nil | apply join_split | apply split_noLineFeed].
Qed.

Lemma Lines_unique (text : string) (ls : list string) :
  Lines text ls -> ls = split LF text.
Proof. intros (Hn & <- & Hall). symmetry. now apply split_join. Qed.

(** *** Blank lines *)

Lemma trimStart_blank (l : string) : trimStart l = "" <-> Blank l.
Proof.
  unfold Blank. induction l as [|c l IH]; cbn; [tauto|].
  destruct (isWhiteSpace c); cbn; [exact IH | split; discriminate].
Qed.

Lemma trimStart_head (l : string) : headFails isWhiteSpace (trimStart l) = true.
Proof.
  induction l as [|c l IH]; cbn; [reflexivity|].
  destruct (isWhiteSpace c) eqn:E; [exact IH | cbn; now rewrite E].
Qed.

Lemma trimEnd_blank (l : string) : trimEnd l = "" <-> Blank l.
Proof.
  unfold Blank. induction l as [|c l IH]; cbn; [tauto|].
  destruct (trimEnd l) eqn:E.
  - destruct (isWhiteSpace c); cbn; [tauto | split; discriminate].
  - split; [discriminate|]. intros [_ H]%andb_true_iff.
    apply IH in H. discriminate H.
Qed.

Lemma truthy_trim (l : string) : truthy (trim l) = false <-> Blank l.
Proof.
  unfold trim. split.
  - intros H. assert (E : trimEnd (trimStart l) = "").
    { destruct (trimEnd (trimStart l)); [reflexivity | discriminate]. }
    apply trimEnd_blank in E. apply trimStart_blank.
    pose proof (trimStart_head l) as Hh. unfold Blank in E.
    destruct (trimStart l) as [|c t]; [reflexivity|].
    cbn in E, Hh. apply andb_true_iff in E as [E _]. rewrite E in Hh. discriminate.
  - intros H%trimStart_blank. now rewrite H.
Qed.

Lemma truthy_trim_true (l : string) : truthy (trim l) = true <-> ~ Blank l.
Proof.
  rewrite <- truthy_trim. destruct (truthy (trim l)); split; congruence.
Qed.

(** *** Keywords *)

Lemma hasKeyword_spec (kws : list string) (l : string) :
  hasKeyword kws l = true <-> MentionsOneOf kws l.
Proof.
  unfold hasKeyword, MentionsOneOf. rewrite existsb_exists.
  split; intros [kw [Hin H]]; exists kw; (split; [assumption|]);
    now apply includes_spec.
Qed.

(** *** Selections *)

Lemma Select_filter (P : string -> Prop) (f : string -> bool) (ls : list string) :
  (forall l, f l = true <-> P l) -> Select P ls (filter f ls).
Proof.
  intros Hf. induction ls as [|l ls IH]; cbn; [constructor|].
  destruct (f l) eqn:E.
  - apply Select_keep; [now apply Hf | assumption].
  - apply Select_drop; [|assumption]. intros HP%Hf. congruence.
Qed.

Lemma Select_functional (P : string -> Prop) (ls a b : list string) :
  Select P ls a -> Select P ls b -> a = b.
Proof.
  intros Ha; revert b; induction Ha as [|l ls kept HP Ha IH|l ls kept HP Ha IH];
    intros b Hb; inversion Hb; subst; try contradiction; auto.
  f_equal; auto.
Qed.

Lemma filter_none (f : string -> bool) (ls : list string) :
  (forall l, In l ls -> f l = false) -> filter f ls = [].
Proof.
  induction ls as [|l ls IH]; cbn; [reflexivity|]. intros H.
  rewrite (H l) by now left. apply IH. intros l' Hl'. apply H. now right.
Qed.

Lemma filter_filter (f g : string -> bool) (ls : list string) :
  filter f (filter g ls) = filter (fun l => g l && f l) ls.
Proof.
  induction ls as [|l ls IH]; cbn; [reflexivity|].
  destruct (g l); cbn; [destruct (f l)|]; now rewrite IH.
Qed.

(** *** Runs of characters *)

Lemma takeWhile_dropWhile (p : ascii -> bool) (s : string) :
  s = takeWhile p s ++ dropWhile p s.
Proof.
  induction s as [|c s IH]; cbn; [reflexivity|].
  destruct (p c); cbn; [now rewrite <- IH | reflexivity].
Qed.

Lemma takeWhile_all (p : ascii -> bool) (s : string) : allChars p (takeWhile p s) = true.
Proof.
  induction s as [|c s IH]; cbn; [reflexivity|].
  destruct (p c) eqn:E; cbn; [now rewrite E | reflexivity].
Qed.

Lemma dropWhile_head (p : ascii -> bool) (s : string) : headFails p (dropWhile p s) = true.
Proof.
  induction s as [|c s IH]; cbn; [reflexivity|].
  destruct (p c) eqn:E; cbn; [exact IH | now rewrite E].
Qed.

Lemma takeWhile_append (p : ascii -> bool) (a b : string) :
  allChars p a = true -> headFails p b = true -> takeWhile p (a ++ b) = a.
Proof.
  intros Ha Hb. induction a as [|c a IH]; cbn in *.
  - destruct b as [|x b]; cbn in *; [reflexivity|].
    now apply negb_true_iff in Hb as ->.
  - apply andb_true_iff in Ha as [-> Ha]. now rewrite IH.
Qed.

Lemma dropWhile_append (p : ascii -> bool) (a b : string) :
  allChars p a = true -> headFails p b = true -> dropWhile p (a ++ b) = b.
Proof.
  intros Ha Hb. induction a as [|c a IH]; cbn in *.
  - destruct b as [|x b]; cbn in *; [reflexivity|].
    now apply negb_true_iff in Hb as ->.
  - apply andb_true_iff in Ha as [-> Ha]. now apply IH.
Qed.

(** *** The regular expression *)

Lemma matchLiteral_sound (pat s rest : string) :
  matchLiteral pat s = Some rest ->
  exists token, s = token ++ rest /\ canonical token = canonical pat.
Proof.
  revert s; induction pat as [|p pat IH]; intros s.
  - destruct s; cbn; intros [= <-]; now exists "".
  - destruct s as [|c s]; cbn; [discriminate|].
    destruct (Ascii.eqb_spec (canonicalize p) (canonicalize c)) as [E|]; [|discriminate].
    intros H. destruct (IH s H) as [token [-> Ht]].
    exists (String c token). cbn. now rewrite Ht, E.
Qed.

Lemma matchLiteral_complete (pat token rest : string) :
  canonical token = canonical pat -> matchLiteral pat (token ++ rest) = Some rest.
Proof.
  revert token; induction pat as [|p pat IH]; intros token.
  - destruct token; cbn; [|discriminate]. intros _. now destruct rest.
  - destruct token as [|c token]; cbn; [discriminate|].
    intros [= E Ht]. rewrite E, Ascii.eqb_refl. now apply IH.
Qed.

Lemma separator_not_digitOrDot (c : ascii) : isDigitOrDot c = true -> isSeparator c = false.
Proof.
  destruct c as [[] [] [] [] [] [] [] []]; vm_compute; congruence.
Qed.

Lemma matchHere_spec (s capture : string) :
  matchHere s = Some capture <-> MatchesHere s capture.
Proof.
  unfold matchHere, MatchesHere. split.
  - destruct (matchLiteral "confidence" s) as [rest|] eqn:E; [|discriminate].
    destruct (matchLiteral_sound _ _ _ E) as [token [-> Ht]].
    destruct (takeWhile isDigitOrDot (dropWhile isSeparator rest)) as [|c t] eqn:Ec;
      [discriminate|].
    intros [= <-]. rewrite <- Ec.
    exists token, (takeWhile isSeparator rest),
           (dropWhile isDigitOrDot (dropWhile isSeparator rest)).
    repeat apply conj.
    + now rewrite <- !takeWhile_dropWhile.
    + exact Ht.
    + apply takeWhile_all.
    + now rewrite Ec.
    + apply takeWhile_all.
    + apply dropWhile_head.
  - intros (token & seps & rest & -> & Ht & Hs & Hne & Hc & Hr).
    rewrite (matchLiteral_complete "confidence" token _ Ht).
    assert (Hh : headFails isSeparator (capture ++ rest) = true).
    { destruct capture as [|c capture]; [contradiction|]. cbn in *.
      apply andb_true_iff in Hc as [Hc _].
      now rewrite (separator_not_digitOrDot c Hc). }
    rewrite (dropWhile_append _ _ _ Hs Hh), (takeWhile_append _ _ _ Hc Hr).
    destruct capture; [contradiction | reflexivity].
Qed.

Lemma matchHere_none (s : string) :
  matchHere s = None <-> forall c, ~ MatchesHere s c.
Proof.
  split.
  - intros H c Hc%matchHere_spec. congruence.
  - intros H. destruct (matchHere s) as [c|] eqn:E; [|reflexivity].
    apply matchHere_spec in E. now apply H in E.
Qed.

Lemma confidenceMatch_here (s capture : string) :
  matchHere s = Some capture -> confidenceMatch s = Some capture.
Proof. intros H. destruct s; cbn [confidenceMatch]; now rewrite H. Qed.

Lemma confidenceMatch_skip (c : ascii) (s : string) :
  matchHere (String c s) = None -> confidenceMatch (String c s) = confidenceMatch s.
Proof. intros H. cbn [confidenceMatch]. now rewrite H. Qed.

Lemma confidenceMatch_first (r capture : string) :
  confidenceMatch r = Some capture <-> exists pre, FirstMatch r pre capture.
Proof.
  split.
  - induction r as [|x r IH].
    + cbn. discriminate.
    + destruct (matchHere (String x r)) as [c|] eqn:E.
      * rewrite (confidenceMatch_here _ _ E). intros [= ->].
        exists "", (String x r). repeat split; [now apply matchHere_spec|].
        intros p1 p2 c Hp Hne. destruct p1, p2; try discriminate. contradiction.
      * rewrite (confidenceMatch_skip _ _ E). intros H.
        destruct (IH H) as (pre & s & -> & Hm & Hfirst).
        exists (String x pre), s. repeat split; [assumption|].
        intros p1 p2 c Hp Hne. destruct p1 as [|y p1]; cbn in Hp.
        -- subst p2. cbn. now apply matchHere_none.
        -- injection Hp as <- Hp. now apply (Hfirst p1 p2).
  - intros (pre & s & -> & Hm & Hfirst).
    induction pre as [|x pre IH]; cbn [append].
    + apply confidenceMatch_here. now apply matchHere_spec.
    + rewrite confidenceMatch_skip.
      * apply IH. intros p1 p2 c Hp Hne. apply (Hfirst (String x p1) p2); [|assumption].
        cbn. now rewrite Hp.
      * apply matchHere_none. intros c. apply (Hfirst "" (String x pre)); [reflexivity|].
        discriminate.
Qed.

Lemma confidenceMatch_none (r : string) : confidenceMatch r = None <-> NoMatch r.
Proof.
  unfold NoMatch. split.
  - induction r as [|x r IH]; intros H pre s c Hr.
    + destruct pre, s; try discriminate. now apply matchHere_none.
    + destruct (matchHere (String x r)) as [c'|] eqn:E.
      * rewrite (confidenceMatch_here _ _ E) in H. discriminate.
      * rewrite (confidenceMatch_skip _ _ E) in H.
        destruct pre as [|y pre]; cbn in Hr.
        -- subst s. now apply matchHere_none.
        -- injection Hr as <- Hr. now apply (IH H pre s c).
  - induction r as [|x r IH]; intros H.
    + reflexivity.
    + rewrite confidenceMatch_skip.
      * apply IH. intros pre s c Hr. apply (H (String x pre) s c). cbn. now rewrite Hr.
      * apply matchHere_none. intros c. now apply (H "" (String x r) c).
Qed.

End StringFacts.

(** ** Properties of the engine *)

Module Properties.
Import JS Engine Spec StringFacts.

#[local] Open Scope Z_scope.

(** *** One round *)

Lemma processIteration_stops task resp prev cfg :
  stops resp prev cfg = true ->
  nextPrompt (processIteration task resp prev cfg) = None /\
  isComplete (state (processIteration task resp prev cfg)) = true.
Proof.
  unfold stops, processIteration; cbn [depth].
  intros ->; split; reflexivity.
Qed.

Lemma processIteration_continues task resp prev cfg :
  stops resp prev cfg = false ->
  nextPrompt (processIteration task resp prev cfg)
  = Some (generateThinkingPrompt task
            (mkState (depth prev + 1) (parseConfidence resp)
                     (iterations prev ++ [resp])%list resp false)
            (spread DEFAULT_CONFIG cfg)) /\
  isComplete (state (processIteration task resp prev cfg)) = false.
Proof.
  unfold stops, processIteration; cbn [depth].
  intros ->; split; reflexivity.
Qed.

Lemma processIteration_state task resp prev cfg :
  depth (state (processIteration task resp prev cfg)) = depth prev + 1 /\
  confidence (state (processIteration task resp prev cfg)) = parseConfidence resp /\
  iterations (state (processIteration task resp prev cfg)) = (iterations prev ++ [resp])%list /\
  lastResult (state (processIteration task resp prev cfg)) = resp.
Proof.
  unfold processIteration.
  match goal with |- context [if ?b then _ else _] => destruct b end;
    repeat split; reflexivity.
Qed.

Lemma generateThinkingPrompt_not_empty task st cfg :
  generateThinkingPrompt task st cfg <> "".
Proof.
  unfold generateThinkingPrompt. destruct (depth st =? 0); discriminate.
Qed.

(** C1: whenever the previous depth has reached the effective [maxDepth]
    (so the incremented depth is at least [maxDepth]), [processIteration]
    returns [isComplete = true] and [nextPrompt = null], whatever the
    response holds and whatever confidence is parsed from it. *)
Theorem C1_depth_limit_completes :
  forall (task resp : string) (prev : ThinkingState) (cfg : PartialThinkingConfig),
    maxDepth (spread DEFAULT_CONFIG cfg) <= depth prev ->
    isComplete (state (processIteration task resp prev cfg)) = true /\
    nextPrompt (processIteration task resp prev cfg) = None.
Proof.
  intros task resp prev cfg Hd.
  destruct (processIteration_stops task resp prev cfg) as [Hn Hc]; [|now split].
  unfold stops.
  replace (maxDepth (spread DEFAULT_CONFIG cfg) <=? depth prev + 1) with true
    by (symmetry; apply Z.leb_le; lia).
  now rewrite orb_true_r.
Qed.

Lemma C1_depth_limit_completes_witness :
  let prev := mkState 5 0.5 [] "" false in
  maxDepth (spread DEFAULT_CONFIG emptyConfig) <= depth prev /\
  isComplete (state (processIteration "task" "still unsure" prev emptyConfig)) = true /\
  nextPrompt (processIteration "task" "still unsure" prev emptyConfig) = None.
Proof.
  split.
  - cbn; lia.
  - apply (C1_depth_limit_completes "task" "still unsure" (mkState 5 0.5 [] "" false) emptyConfig).
    cbn; lia.
Defined.

(** C2: whenever the confidence parsed from the response is at least the
    effective [minConfidence], [processIteration] returns
    [isComplete = true] and [nextPrompt = null], at every depth and whether
    or not the readiness heuristic fires. *)
Theorem C2_confidence_threshold_completes :
  forall (task resp : string) (prev : ThinkingState) (cfg : PartialThinkingConfig),
    (minConfidence (spread DEFAULT_CONFIG cfg) <=? parseConfidence resp)%float = true ->
    isComplete (state (processIteration task resp prev cfg)) = true /\
    nextPrompt (processIteration task resp prev cfg) = None.
Proof.
  intros task resp prev cfg Hc.
  destruct (processIteration_stops task resp prev cfg) as [Hn Hs]; [|now split].
  unfold stops. rewrite Hc. apply orb_true_r.
Qed.

Lemma C2_confidence_threshold_completes_witness :
  let cfg := mkPartial (Some 10) (Some 0.6%float) None None in
  (minConfidence (spread DEFAULT_CONFIG cfg) <=? parseConfidence "ok, confidence: 0.7")%float
    = true /\
  isComplete (state (processIteration "task" "ok, confidence: 0.7" initialState cfg)) = true /\
  nextPrompt (processIteration "task" "ok, confidence: 0.7" initialState cfg) = None.
Proof.
  split.
  - vm_compute; reflexivity.
  - apply (C2_confidence_threshold_completes "task" "ok, confidence: 0.7" initialState
             (mkPartial (Some 10) (Some 0.6%float) None None)).
    vm_compute; reflexivity.
Defined.

(** C3: [isProductionReady resultText confidence] is true exactly when the
    confidence is at least the constant 0.85 (the function takes no
    configuration), the lower-cased text contains one of the ten indicator
    words, and the text is longer than 50 characters. *)
Theorem C3_isProductionReady_iff :
  forall (resultText : string) (confidence : float),
    isProductionReady resultText confidence = true <->
    (0.85 <=? confidence)%float = true /\
    MentionsOneOf
      [ "implement"; "complete"; "final"; "solution"; "ready";
        "tested"; "handle"; "error"; "edge case"; "deploy" ] resultText /\
    (50 < String.length resultText)%nat.
Proof.
  intros resultText confidence. unfold isProductionReady.
  rewrite !andb_true_iff, hasKeyword_spec, Nat.ltb_lt. unfold prodIndicators.
  tauto.
Qed.

(** C5: every call appends exactly the response to [iterations] and adds
    exactly 1 to [depth], for every previous depth from -2^53 up to
    2^53 - 1, the integers on which the binary64 sum [depth + 1] of the
    code is the integer sum; so [iterations.length = depth], true of the
    initial state, is kept by every call, and after N calls from the
    initial state both are N. *)
Theorem C5_depth_accounting :
  (forall task resp prev cfg,
      - 2 ^ 53 <= depth prev < 2 ^ 53 ->
      depth (state (processIteration task resp prev cfg)) = depth prev + 1) /\
  (forall task resp prev cfg,
      iterations (state (processIteration task resp prev cfg)) = (iterations prev ++ [resp])%list) /\
  Z.of_nat (length (iterations initialState)) = depth initialState /\
  (forall task resp prev cfg,
      Z.of_nat (length (iterations prev)) = depth prev ->
      Z.of_nat (length (iterations (state (processIteration task resp prev cfg))))
      = depth (state (processIteration task resp prev cfg))) /\
  (forall calls : list Call,
      depth (runCalls calls initialState) = Z.of_nat (length calls) /\
      length (iterations (runCalls calls initialState)) = length calls /\
      iterations (runCalls calls initialState) = map callResponse calls).
Proof.
  repeat apply conj.
  - intros task resp prev cfg _. pose proof (processIteration_state task resp prev cfg). tauto.
  - intros. pose proof (processIteration_state task resp prev cfg). tauto.
  - reflexivity.
  - intros task resp prev cfg Hinv.
    destruct (processIteration_state task resp prev cfg) as (-> & _ & -> & _).
    rewrite length_app, Nat2Z.inj_add. cbn. lia.
  - intros calls.
    assert (G : forall st,
      depth (runCalls calls st) = depth st + Z.of_nat (length calls) /\
      iterations (runCalls calls st) = (iterations st ++ map callResponse calls)%list).
    { induction calls as [|c calls IH]; intros st.
      - cbn. rewrite app_nil_r. split; [lia | reflexivity].
      - cbn [runCalls fold_left]. fold (runCalls calls).
        destruct (IH (state (processIteration (callTask c) (callResponse c) st (callConfig c))))
          as [Hd Hi].
        fold (runCalls calls
                (state (processIteration (callTask c) (callResponse c) st (callConfig c)))).
        rewrite Hd, Hi.
        destruct (processIteration_state (callTask c) (callResponse c) st (callConfig c))
          as (-> & _ & -> & _).
        rewrite <- app_assoc. cbn [length map app]. split; [lia | reflexivity]. }
    destruct (G initialState) as [Hd Hi]. rewrite Hd, Hi. cbn [depth iterations initialState app].
    repeat split; try lia. now rewrite length_map.
Qed.

Lemma C5_depth_accounting_witness :
  let prev := mkState 2 0.5 ["a"; "b"] "b" false in
  - 2 ^ 53 <= depth prev < 2 ^ 53 /\
  depth (state (processIteration "task" "c" prev emptyConfig)) = depth prev + 1 /\
  Z.of_nat (length (iterations prev)) = depth prev /\
  Z.of_nat (length (iterations (state (processIteration "task" "c" prev emptyConfig))))
  = depth (state (processIteration "task" "c" prev emptyConfig)).
Proof.
  assert (Hrange : - 2 ^ 53 <= 2 < 2 ^ 53) by (split; [discriminate | reflexivity]).
  split; [exact Hrange|]. split; [|split].
  - apply (proj1 C5_depth_accounting "task" "c"
             (mkState 2 0.5 ["a"; "b"] "b" false) emptyConfig).
    exact Hrange.
  - reflexivity.
  - apply (proj1 (proj2 (proj2 (proj2 C5_depth_accounting))) "task" "c"
             (mkState 2 0.5 ["a"; "b"] "b" false) emptyConfig).
    reflexivity.
Defined.

(** C6: [processIteration] returns [nextPrompt = null] exactly when the
    returned state has [isComplete = true]; when [isComplete] is false the
    prompt is a non-empty string, and the prompt generator never returns the
    empty string. *)
Theorem C6_prompt_absent_iff_complete :
  (forall task resp prev cfg,
      (nextPrompt (processIteration task resp prev cfg) = None <->
       isComplete (state (processIteration task resp prev cfg)) = true) /\
      (isComplete (state (processIteration task resp prev cfg)) = false ->
       exists p, nextPrompt (processIteration task resp prev cfg) = Some p /\ p <> "")) /\
  (forall task st cfg, generateThinkingPrompt task st cfg <> "").
Proof.
  split; [|apply generateThinkingPrompt_not_empty].
  intros task resp prev cfg. destruct (stops resp prev cfg) eqn:E.
  - destruct (processIteration_stops task resp prev cfg E) as [-> ->].
    split; [tauto | discriminate].
  - destruct (processIteration_continues task resp prev cfg E) as [-> ->].
    split; [split; discriminate|].
    intros _. eexists; split; [reflexivity | apply generateThinkingPrompt_not_empty].
Qed.

Lemma C6_prompt_absent_iff_complete_witness :
  isComplete (state (processIteration "task" "thinking" initialState emptyConfig)) = false /\
  exists p, nextPrompt (processIteration "task" "thinking" initialState emptyConfig) = Some p
            /\ p <> "".
Proof.
  split.
  - vm_compute; reflexivity.
  - apply (proj2 (proj1 C6_prompt_absent_iff_complete "task" "thinking" initialState emptyConfig)).
    vm_compute; reflexivity.
Defined.

(** *** The insight compressor *)

Lemma retained_spec (l : string) :
  truthy (trim l) && hasKeyword keywords l = true <->
  ~ Blank l /\ MentionsOneOf insightKeywords l.
Proof.
  rewrite andb_true_iff, truthy_trim_true, hasKeyword_spec. reflexivity.
Qed.

Lemma compressInsights_meets_spec (text : string) : CompressSpec text (compressInsights text).
Proof.
  exists (split LF text),
         (filter (hasKeyword keywords) (filter (fun l => truthy (trim l)) (split LF text))).
  split; [apply Lines_split|]. split; [|apply slice0_Truncated].
  rewrite filter_filter. apply Select_filter. exact retained_spec.
Qed.

Lemma CompressSpec_functional (text a b : string) :
  CompressSpec text a -> CompressSpec text b -> a = b.
Proof.
  intros (la & ka & Hla & Hka & Ha) (lb & kb & Hlb & Hkb & Hb).
  apply Lines_unique in Hla, Hlb. subst la lb.
  rewrite (Select_functional _ _ _ _ Hka Hkb) in Ha.
  exact (Truncated_unique _ _ _ _ Ha Hb).
Qed.

(** C7: [compressInsights] computes the reference definition (lines, blank
    lines discarded, exactly the lines mentioning one of the eight keywords
    kept, joined by line feeds, cut to at most 500 characters); so its
    result is never longer than 500 characters and is empty when no line
    mentions a keyword. *)
Theorem C7_compress_reference :
  forall text : string,
    CompressSpec text (compressInsights text) /\
    (forall out, CompressSpec text out -> out = compressInsights text) /\
    (String.length (compressInsights text) <= 500)%nat /\
    ((forall ls l, Lines text ls -> In l ls ->
        ~ MentionsOneOf
            [ "therefore"; "conclusion"; "solution"; "approach";
              "error"; "issue"; "fixed"; "implement" ] l) ->
     compressInsights text = "").
Proof.
  intros text. repeat apply conj.
  - apply compressInsights_meets_spec.
  - intros out Hout.
    exact (CompressSpec_functional text _ _ Hout (compressInsights_meets_spec text)).
  - unfold compressInsights. rewrite slice0_length. apply Nat.le_min_l.
  - intros Hnone. unfold compressInsights.
    rewrite filter_filter, filter_none; [reflexivity|].
    intros l Hl. apply not_true_is_false. intros [_ Hm]%retained_spec.
    exact (Hnone (split LF text) l (Lines_split text) Hl Hm).
Qed.

Lemma C7_compress_reference_witness :
  (forall ls l, Lines ("first idea" ++ NL ++ "second idea") ls -> In l ls ->
     ~ MentionsOneOf
         [ "therefore"; "conclusion"; "solution"; "approach";
           "error"; "issue"; "fixed"; "implement" ] l) /\
  compressInsights ("first idea" ++ NL ++ "second idea") = "".
Proof.
  assert (H : forall ls l, Lines ("first idea" ++ NL ++ "second idea") ls -> In l ls ->
     ~ MentionsOneOf
         [ "therefore"; "conclusion"; "solution"; "approach";
           "error"; "issue"; "fixed"; "implement" ] l).
  { intros ls l Hls Hl Hm. apply Lines_unique in Hls. subst ls.
    apply hasKeyword_spec in Hm.
    vm_compute in Hl.
    destruct Hl as [<- | [<- | []]]; vm_compute in Hm; discriminate Hm. }
  split; [exact H|].
  exact (proj2 (proj2 (proj2 (C7_compress_reference ("first idea" ++ NL ++ "second idea")))) H).
Defined.

(** *** The initial prompt *)

Lemma initial_prompt_shape task st cfg :
  depth st = 0 ->
  generateThinkingPrompt task st cfg =
  ("Analyze task: " ++ DQ) ++ slice0 200 task ++
  (DQ ++ NL ++ "Provide: [approach][potential_issues][confidence_0-1]" ++ NL ++
   "Format: Single paragraph, minimal words.").
Proof.
  intros H. unfold generateThinkingPrompt. rewrite H. cbn [Z.eqb].
  now rewrite append_assoc.
Qed.

Ltac in_literal := apply includes_spec; vm_compute; reflexivity.

(** C8: at depth 0 the prompt is at most 311 characters long, embeds the
    first 200 characters of the task and nothing else of it, and contains
    the markers [[approach]], [[potential_issues]] and [[confidence_0-1]];
    the prompt that starts the task "Build a REST API" contains
    "Build a REST API". *)
Theorem C8_initial_prompt :
  (forall (task : string) (st : ThinkingState) (cfg : ThinkingConfig),
      depth st = 0 ->
      let prompt := generateThinkingPrompt task st cfg in
      (String.length prompt <= 311)%nat /\
      Substring (slice0 200 task) prompt /\
      Prefix (slice0 200 task) task /\
      (String.length (slice0 200 task) <= 200)%nat /\
      (forall task', slice0 200 task' = slice0 200 task ->
                     generateThinkingPrompt task' st cfg = prompt) /\
      Substring "[approach]" prompt /\
      Substring "[potential_issues]" prompt /\
      Substring "[confidence_0-1]" prompt) /\
  Substring "Build a REST API" (result (recursiveThink "Build a REST API" emptyConfig)).
Proof.
  split; [|in_literal].
  intros task st cfg H prompt. subst prompt.
  repeat apply conj.
  - rewrite (initial_prompt_shape task st cfg H), !length_append, slice0_length.
    cbn [String.length DQ NL]. lia.
  - rewrite (initial_prompt_shape task st cfg H). apply Substring_append.
  - apply slice0_prefix.
  - rewrite slice0_length. apply Nat.le_min_l.
  - intros task' E. rewrite !initial_prompt_shape by assumption. now rewrite E.
  - rewrite (initial_prompt_shape task st cfg H).
    do 2 apply Substring_right. in_literal.
  - rewrite (initial_prompt_shape task st cfg H).
    do 2 apply Substring_right. in_literal.
  - rewrite (initial_prompt_shape task st cfg H).
    do 2 apply Substring_right. in_literal.
Qed.

Lemma C8_initial_prompt_witness :
  depth initialState = 0 /\
  Substring "[approach]" (generateThinkingPrompt "Build a REST API" initialState DEFAULT_CONFIG).
Proof.
  split.
  - reflexivity.
  - apply (proj1 C8_initial_prompt "Build a REST API" initialState DEFAULT_CONFIG).
    reflexivity.
Defined.

(** *** Configuration fields that are not read *)

(** C9: [processIteration] and the prompt generator return the same result
    for two configurations that differ only in [maxIterations] and
    [temperature]. *)
Theorem C9_maxIterations_temperature_unused :
  (forall task resp prev md mc mi1 t1 mi2 t2,
      processIteration task resp prev (mkPartial md mc mi1 t1)
      = processIteration task resp prev (mkPartial md mc mi2 t2)) /\
  (forall task st md mc mi1 t1 mi2 t2,
      generateThinkingPrompt task st (mkConfig md mc mi1 t1)
      = generateThinkingPrompt task st (mkConfig md mc mi2 t2)) /\
  (forall task md mc mi1 t1 mi2 t2,
      recursiveThink task (mkPartial md mc mi1 t1)
      = recursiveThink task (mkPartial md mc mi2 t2)).
Proof.
  repeat apply conj; intros; reflexivity.
Qed.

(** *** Parsing the confidence *)

Lemma parseConfidence_no_match (r : string) : NoMatch r -> parseConfidence r = 0.5%float.
Proof. intros H%confidenceMatch_none. unfold parseConfidence. now rewrite H. Qed.






Lemma parseConfidence_first_wins :
  parseConfidence "confidence: 0.3 at first, now confidence: 0.92" = 0.3%float.
Proof. vm_compute. reflexivity. Qed.

(** When the expression matches nowhere and the effective [minConfidence]
    is at most 0.5, the round completes. *)
Lemma no_match_completes task resp prev cfg :
  NoMatch resp ->
  (minConfidence (spread DEFAULT_CONFIG cfg) <=? 0.5)%float = true ->
  isComplete (state (processIteration task resp prev cfg)) = true /\
  nextPrompt (processIteration task resp prev cfg) = None.
Proof.
  intros Hn Hc.
  destruct (processIteration_stops task resp prev cfg) as [Hp Hs]; [|now split].
  unfold stops. rewrite (parseConfidence_no_match resp Hn), Hc. apply orb_true_r.
Qed.

(** C10: the response below holds the word "confidence" and no digit at
    all, so no number follows the word; the effective [minConfidence] is
    0.5.  The expression still matches, capturing the full stop after the
    word, [parseFloat] returns [NaN], and the round does not complete. *)
Theorem C10_token_without_number_is_nan :
  let resp := "I have confidence. Need more work" in
  let cfg := mkPartial None (Some 0.5%float) None None in
  let r := processIteration "Build a REST API" resp initialState cfg in
  allChars (fun c => negb (isDigit c)) resp = true /\
  (minConfidence (spread DEFAULT_CONFIG cfg) <=? 0.5)%float = true /\
  confidenceMatch resp = Some "." /\
  PrimFloat.is_nan (confidence (state r)) = true /\
  isComplete (state r) = false /\
  nextPrompt r <> None.
Proof.
  vm_compute. repeat split; discriminate.
Qed.

(** *** The scenarios of the specification *)

(** Scenario B: a first response with confidence 0.6 under the default
    configuration. *)
Example scenario_B :
  let r := processIteration "Build a REST API"
             "I will use Express and handle errors, confidence: 0.6"
             initialState emptyConfig in
  depth (state r) = 1 /\
  confidence (state r) = 0.6%float /\
  isComplete (state r) = false /\
  exists p, nextPrompt r = Some p /\ includes p "depth 1/5" = true /\
            includes p "Current confidence: 0.6" = true.
Proof.
  vm_compute. repeat split. eexists. repeat split.
Qed.

(** Scenario C: a long final answer with confidence 0.9. *)
Example scenario_C :
  let resp := "Final implemented solution, fully tested and ready to deploy, confidence: 0.9" in
  let r := processIteration "Build a REST API" resp initialState emptyConfig in
  isProductionReady resp (parseConfidence resp) = true /\
  isComplete (state r) = true /\ nextPrompt r = None.
Proof.
  vm_compute. repeat split.
Qed.

(** Scenario D: five responses without a confidence, [maxDepth] 5; the
    session completes at the fifth call and not before. *)
Example scenario_D :
  let call := mkCall "Build a REST API" "still weighing the options" emptyConfig in
  let after n := runCalls (repeat call n) initialState in
  map (fun n => isComplete (after n)) [1; 2; 3; 4; 5]%nat = [false; false; false; false; true] /\
  confidence (after 5%nat) = 0.5%float /\
  depth (after 5%nat) = 5.
Proof.
  vm_compute. repeat split.
Qed.

End Properties.

(** ** Further properties of the engine *)

Module EngineProperties.
Import JS Engine Spec StringFacts Properties.

#[local] Open Scope Z_scope.

(** *** The stopping rule *)

Lemma isComplete_stops task resp prev cfg :
  isComplete (state (processIteration task resp prev cfg)) = stops resp prev cfg.
Proof.
  destruct (stops resp prev cfg) eqn:E.
  - now destruct (processIteration_stops task resp prev cfg E).
  - now destruct (processIteration_continues task resp prev cfg E).
Qed.

Lemma isComplete_triggers task resp prev cfg :
  isComplete (state (processIteration task resp prev cfg)) = true <->
  isProductionReady resp (parseConfidence resp) = true \/
  maxDepth (spread DEFAULT_CONFIG cfg) <= depth prev + 1 \/
  (minConfidence (spread DEFAULT_CONFIG cfg) <=? parseConfidence resp)%float = true.
Proof.
  rewrite isComplete_stops. unfold stops.
  rewrite !orb_true_iff, Z.leb_le. tauto.
Qed.

Lemma state_ignores_task t1 t2 resp st cfg :
  state (processIteration t1 resp st cfg) = state (processIteration t2 resp st cfg).
Proof.
  unfold processIteration.
  match goal with |- context [if ?b then _ else _] => destruct b end; reflexivity.
Qed.




(** X3: of the previous state only [depth] and [iterations] are read: its
    [isComplete], [confidence] and [lastResult] have no influence, so a
    completed session is processed like any other.  The task only shapes
    the prompt: the returned state is the same for every task. *)
Theorem previous_state_read_through_depth_and_iterations :
  (forall task resp cfg d its c1 l1 b1 c2 l2 b2,
      processIteration task resp (mkState d c1 its l1 b1) cfg
      = processIteration task resp (mkState d c2 its l2 b2) cfg) /\
  (forall task task' resp prev cfg,
      state (processIteration task resp prev cfg)
      = state (processIteration task' resp prev cfg)).
Proof.
  split; [reflexivity|]. intros. apply state_ignores_task.
Qed.



(** *** Sessions *)

Lemma runCalls_snoc calls c st :
  runCalls (calls ++ [c]) st
  = state (processIteration (callTask c) (callResponse c) (runCalls calls st) (callConfig c)).
Proof. unfold runCalls. now rewrite fold_left_app. Qed.

Lemma runCalls_depth calls st :
  depth (runCalls calls st) = depth st + Z.of_nat (length calls).
Proof.
  induction calls as [|c calls IH] using rev_ind.
  - cbn. lia.
  - rewrite runCalls_snoc, length_app, Nat2Z.inj_add.
    destruct (processIteration_state (callTask c) (callResponse c)
                (runCalls calls st) (callConfig c)) as (-> & _).
    rewrite IH. cbn. lia.
Qed.

(** X5: A session started from the initial state is complete after its n-th
    call whenever the [maxDepth] in force at that call is at most n:
    whatever the responses, it completes at its [maxDepth]-th call at the
    latest. *)
Theorem session_completes_by_maxDepth :
  forall (calls : list Call) (c : Call),
    maxDepth (spread DEFAULT_CONFIG (callConfig c)) <= Z.of_nat (length calls) + 1 ->
    isComplete (runCalls (calls ++ [c]) initialState) = true.
Proof.
  intros calls c Hm. rewrite runCalls_snoc. apply isComplete_triggers.
  right; left. rewrite runCalls_depth. cbn [depth initialState]. lia.
Qed.

Lemma session_completes_by_maxDepth_witness :
  let c := mkCall "task" "no idea yet" (mkPartial (Some 2) None None None) in
  maxDepth (spread DEFAULT_CONFIG (callConfig c)) <= Z.of_nat (length [c]) + 1 /\
  isComplete (runCalls ([c] ++ [c]) initialState) = true.
Proof.
  split.
  - cbn. lia.
  - apply (session_completes_by_maxDepth
             [mkCall "task" "no idea yet" (mkPartial (Some 2) None None None)]
             (mkCall "task" "no idea yet" (mkPartial (Some 2) None None None))).
    cbn. lia.
Defined.


(** *** The insight compressor *)

Lemma slice0_id (n : nat) (s : string) : (String.length s <= n)%nat -> slice0 n s = s.
Proof.
  unfold slice0. revert s; induction n as [|n IH]; intros s H.
  - destruct s; [reflexivity | cbn in H; lia].
  - destruct s as [|c s]; cbn; [reflexivity|]. cbn in H. rewrite IH by lia. reflexivity.
Qed.

Lemma slice0_untruncated (n : nat) (s : string) :
  (String.length (slice0 n s) < n)%nat -> slice0 n s = s.
Proof. rewrite slice0_length. intros H. apply slice0_id. lia. Qed.

Lemma split_append (x y : string) : split LF (x ++ NL ++ y) = (split LF x ++ split LF y)%list.
Proof.
  change (NL ++ y) with (String LF y).
  induction x as [|c x IH]; [reflexivity|].
  cbn [append split]. destruct (Ascii.eqb c LF).
  - cbn [app]. now f_equal.
  - rewrite IH. pose proof (split_not_nil LF x).
    destruct (split LF x); [contradiction | reflexivity].
Qed.

Lemma toLowerCase_append (a b : string) :
  toLowerCase (a ++ b) = toLowerCase a ++ toLowerCase b.
Proof. induction a as [|c a IH]; cbn; [reflexivity | now rewrite IH]. Qed.

Lemma Substring_trans (a b c : string) : Substring a b -> Substring b c -> Substring a c.
Proof.
  intros [p1 [q1 ->]] [p2 [q2 ->]]. exists (p2 ++ p1), (q1 ++ q2).
  now rewrite !append_assoc.
Qed.

Lemma Substring_lower (a b : string) :
  Substring a b -> Substring (toLowerCase a) (toLowerCase b).
Proof.
  intros [p [q ->]]. exists (toLowerCase p), (toLowerCase q).
  now rewrite !toLowerCase_append.
Qed.

Lemma In_join_Substring (l : string) (ls : list string) :
  In l ls -> Substring l (join NL ls).
Proof.
  induction ls as [|x ls IH]; [contradiction|]. intros [-> | H].
  - destruct ls as [|y ls]; [apply Substring_refl|].
    rewrite join_cons. apply Substring_left, Substring_refl.
  - destruct ls as [|y ls]; [contradiction|].
    rewrite join_cons. do 2 apply Substring_right. now apply IH.
Qed.

(** The lines the compressor retains, before they are joined and cut. *)
Lemma compressInsights_lines (text : string) :
  compressInsights text
  = slice0 500 (join NL (filter (fun l => truthy (trim l) && hasKeyword keywords l)
                                (split LF text))).
Proof. unfold compressInsights. now rewrite filter_filter. Qed.

Lemma filter_idempotent (f : string -> bool) (ls : list string) :
  filter f (filter f ls) = filter f ls.
Proof.
  induction ls as [|l ls IH]; cbn; [reflexivity|].
  destruct (f l) eqn:E; cbn; [rewrite E; now f_equal | exact IH].
Qed.

Lemma filter_noLineFeed (f : string -> bool) (text : string) :
  Forall (fun l => noLineFeed l = true) (filter f (split LF text)).
Proof.
  apply Forall_forall. intros l [Hl _]%filter_In.
  exact (proj1 (Forall_forall _ _) (split_noLineFeed text) l Hl).
Qed.

(** X7: compressing twice gives what compressing once gives, whenever the
    first result was not cut at 500 characters. *)
Theorem compressInsights_idempotent_when_not_cut :
  forall text : string,
    (String.length (compressInsights text) < 500)%nat ->
    compressInsights (compressInsights text) = compressInsights text.
Proof.
  intros text Hlen. rewrite (compressInsights_lines text) in *.
  set (f := fun l => truthy (trim l) && hasKeyword keywords l) in *.
  rewrite (slice0_untruncated _ _ Hlen) in *.
  destruct (filter f (split LF text)) as [|l ls] eqn:E; [reflexivity|].
  rewrite compressInsights_lines. fold f.
  rewrite split_join; [|discriminate | rewrite <- E; apply filter_noLineFeed].
  assert (Hf : filter f (l :: ls) = l :: ls) by (rewrite <- E; apply filter_idempotent).
  rewrite Hf. now apply slice0_untruncated.
Qed.

Lemma compressInsights_idempotent_when_not_cut_witness :
  let text := "intro" ++ NL ++ "The solution is a cache" ++ NL ++ NL ++ "Fixed the error" in
  (String.length (compressInsights text) < 500)%nat /\
  compressInsights (compressInsights text) = compressInsights text.
Proof.
  split.
  - vm_compute. lia.
  - apply (compressInsights_idempotent_when_not_cut
             ("intro" ++ NL ++ "The solution is a cache" ++ NL ++ NL ++ "Fixed the error")).
    vm_compute. lia.
Defined.

Lemma unmentioned_lines_dropped (l : string) :
  ~ MentionsOneOf insightKeywords l ->
  filter (fun x => truthy (trim x) && hasKeyword keywords x) (split LF l) = [].
Proof.
  intros Hl. apply filter_none. intros x Hx. apply not_true_is_false.
  intros [_ [kw [Hkw Hsub]]%hasKeyword_spec]%andb_true_iff. apply Hl.
  exists kw. split; [exact Hkw|].
  apply (Substring_trans _ _ _ Hsub), Substring_lower.
  rewrite <- (join_split l). now apply In_join_Substring.
Qed.

(** X8: text that mentions no keyword leaves no trace: inserting it, on lines
    of its own, between two parts of a text, before a text or after a text
    does not change the compressed result. *)
Theorem compressInsights_ignores_unmentioned_text :
  forall a l b : string,
    ~ MentionsOneOf
        [ "therefore"; "conclusion"; "solution"; "approach";
          "error"; "issue"; "fixed"; "implement" ] l ->
    compressInsights (a ++ NL ++ l ++ NL ++ b) = compressInsights (a ++ NL ++ b) /\
    compressInsights (l ++ NL ++ b) = compressInsights b /\
    compressInsights (a ++ NL ++ l) = compressInsights a.
Proof.
  intros a l b Hl. pose proof (unmentioned_lines_dropped l Hl) as Hd.
  rewrite !compressInsights_lines, !split_append, !filter_app, Hd.
  cbn [app]. rewrite app_nil_r. repeat split.
Qed.

Lemma compressInsights_ignores_unmentioned_text_witness :
  ~ MentionsOneOf
      [ "therefore"; "conclusion"; "solution"; "approach";
        "error"; "issue"; "fixed"; "implement" ] "Let me think about it" /\
  compressInsights ("Let me think about it" ++ NL ++ "The approach is sound")
  = compressInsights "The approach is sound".
Proof.
  assert (H : ~ MentionsOneOf
      [ "therefore"; "conclusion"; "solution"; "approach";
        "error"; "issue"; "fixed"; "implement" ] "Let me think about it").
  { intros Hm%hasKeyword_spec. vm_compute in Hm. discriminate Hm. }
  split; [exact H|].
  exact (proj1 (proj2 (compressInsights_ignores_unmentioned_text
                         "" "Let me think about it" "The approach is sound" H))).
Defined.

(** *** The refinement prompt *)

Lemma refinement_prompt_shape task st cfg :
  depth st <> 0 ->
  generateThinkingPrompt task st cfg =
  "Refine solution (depth " ++ integerToString (depth st) ++ "/" ++
    integerToString (maxDepth cfg) ++ "):" ++ NL ++
  "Task: " ++ DQ ++ slice0 100 task ++ "..." ++ DQ ++ NL ++
  "Previous: " ++ DQ ++ compressInsights (lastResult st) ++ DQ ++ NL ++
  "Current confidence: " ++ numberToString (confidence st) ++ NL ++
  "Provide: [refinement][what_to_improve][new_confidence]" ++ NL ++
  "Format: Concise, action-oriented.".
Proof.
  intros H. unfold generateThinkingPrompt.
  now apply Z.eqb_neq in H as ->.
Qed.

Ltac same_text :=
  repeat first [rewrite append_assoc | progress cbn [append NL DQ]]; reflexivity.

Lemma compressInsights_length (text : string) :
  (String.length (compressInsights text) <= 500)%nat.
Proof. unfold compressInsights. rewrite slice0_length. apply Nat.le_min_l. Qed.

Lemma refinement_prompt_task_line task st cfg :
  depth st <> 0 ->
  Substring ("Task: " ++ DQ ++ slice0 100 task ++ "..." ++ DQ ++ NL)
            (generateThinkingPrompt task st cfg).
Proof.
  intros H. rewrite (refinement_prompt_shape task st cfg H).
  exists ("Refine solution (depth " ++ integerToString (depth st) ++ "/" ++
          integerToString (maxDepth cfg) ++ "):" ++ NL),
    ("Previous: " ++ DQ ++ compressInsights (lastResult st) ++ DQ ++ NL ++
     "Current confidence: " ++ numberToString (confidence st) ++ NL ++
     "Provide: [refinement][what_to_improve][new_confidence]" ++ NL ++
     "Format: Concise, action-oriented.").
  same_text.
Qed.

(** X9: after the first round the prompt shows the round and the limit as
    "depth d/m", the first 100 characters of the task followed by "..."
    (also when the task is shorter), the compressed last response, the
    confidence, and the three markers; it is at most 761 characters longer
    than the three numbers it prints, however long the task and the last
    response are. *)
Theorem refinement_prompt_contents :
  forall (task : string) (st : ThinkingState) (cfg : ThinkingConfig),
    depth st <> 0 ->
    let prompt := generateThinkingPrompt task st cfg in
    Substring ("depth " ++ integerToString (depth st) ++ "/" ++
               integerToString (maxDepth cfg) ++ ")") prompt /\
    Substring ("Task: " ++ DQ ++ slice0 100 task ++ "..." ++ DQ ++ NL) prompt /\
    Substring ("Previous: " ++ DQ ++ compressInsights (lastResult st) ++ DQ ++ NL) prompt /\
    Substring ("Current confidence: " ++ numberToString (confidence st) ++ NL) prompt /\
    Substring "[refinement][what_to_improve][new_confidence]" prompt /\
    (String.length prompt
     <= 761 + String.length (integerToString (depth st))
        + String.length (integerToString (maxDepth cfg))
        + String.length (numberToString (confidence st)))%nat.
Proof.
  intros task st cfg H prompt. subst prompt.
  rewrite (refinement_prompt_shape task st cfg H).
  set (d := integerToString (depth st)). set (m := integerToString (maxDepth cfg)).
  set (c := numberToString (confidence st)). set (t := slice0 100 task).
  set (p := compressInsights (lastResult st)).
  repeat apply conj.
  - exists "Refine solution (",
      (":" ++ NL ++ "Task: " ++ DQ ++ t ++ "..." ++ DQ ++ NL ++
       "Previous: " ++ DQ ++ p ++ DQ ++ NL ++ "Current confidence: " ++ c ++ NL ++
       "Provide: [refinement][what_to_improve][new_confidence]" ++ NL ++
       "Format: Concise, action-oriented.").
    same_text.
  - exists ("Refine solution (depth " ++ d ++ "/" ++ m ++ "):" ++ NL),
      ("Previous: " ++ DQ ++ p ++ DQ ++ NL ++ "Current confidence: " ++ c ++ NL ++
       "Provide: [refinement][what_to_improve][new_confidence]" ++ NL ++
       "Format: Concise, action-oriented.").
    same_text.
  - exists ("Refine solution (depth " ++ d ++ "/" ++ m ++ "):" ++ NL ++
            "Task: " ++ DQ ++ t ++ "..." ++ DQ ++ NL),
      ("Current confidence: " ++ c ++ NL ++
       "Provide: [refinement][what_to_improve][new_confidence]" ++ NL ++
       "Format: Concise, action-oriented.").
    same_text.
  - exists ("Refine solution (depth " ++ d ++ "/" ++ m ++ "):" ++ NL ++
            "Task: " ++ DQ ++ t ++ "..." ++ DQ ++ NL ++
            "Previous: " ++ DQ ++ p ++ DQ ++ NL),
      ("Provide: [refinement][what_to_improve][new_confidence]" ++ NL ++
       "Format: Concise, action-oriented.").
    same_text.
  - exists ("Refine solution (depth " ++ d ++ "/" ++ m ++ "):" ++ NL ++
            "Task: " ++ DQ ++ t ++ "..." ++ DQ ++ NL ++
            "Previous: " ++ DQ ++ p ++ DQ ++ NL ++
            "Current confidence: " ++ c ++ NL ++ "Provide: "),
      (NL ++ "Format: Concise, action-oriented.").
    same_text.
  - rewrite !length_append. subst t. rewrite (slice0_length 100 task).
    pose proof (compressInsights_length (lastResult st)). fold p in H0.
    cbn [String.length DQ NL]. lia.
Qed.

Lemma refinement_prompt_contents_witness :
  let st := mkState 2 0.6 ["a"; "b"] "b" false in
  depth st <> 0 /\
  Substring ("depth " ++ integerToString (depth st) ++ "/" ++
             integerToString (maxDepth DEFAULT_CONFIG) ++ ")")
            (generateThinkingPrompt "Build a REST API" st DEFAULT_CONFIG).
Proof.
  split.
  - discriminate.
  - apply (refinement_prompt_contents "Build a REST API"
             (mkState 2 0.6 ["a"; "b"] "b" false) DEFAULT_CONFIG).
    discriminate.
Defined.

(** X10: after the first round the prompt is built from the first 100 characters
    of the task, the state's [depth], [lastResult] and [confidence], and
    the configured [maxDepth], and from nothing else: the recorded
    iterations, the completion flag and the other configuration fields
    never show in it. *)
Theorem refinement_prompt_reads :
  forall task task' d c l its its' b b' md mc mc' mi mi' t t',
    d <> 0 ->
    slice0 100 task = slice0 100 task' ->
    generateThinkingPrompt task (mkState d c its l b) (mkConfig md mc mi t)
    = generateThinkingPrompt task' (mkState d c its' l b') (mkConfig md mc' mi' t').
Proof.
  intros until t'. intros Hd Ht.
  rewrite !refinement_prompt_shape by exact Hd. cbn [depth maxDepth lastResult confidence].
  now rewrite Ht.
Qed.

Lemma refinement_prompt_reads_witness :
  (1 <> 0) /\ slice0 100 "task" = slice0 100 "task" /\
  generateThinkingPrompt "task" (mkState 1 0.5 ["x"] "x" false) (mkConfig 5 0.85 8 0.7)
  = generateThinkingPrompt "task" (mkState 1 0.5 [] "x" true) (mkConfig 5 0.5 1 0).
Proof.
  split; [discriminate|]. split; [reflexivity|].
  apply (refinement_prompt_reads "task" "task" 1 0.5%float "x" ["x"] [] false true
           5 0.85%float 0.5%float 8 1 0.7%float 0%float);
    [discriminate | reflexivity].
Defined.

(** *** Starting a session *)

(** X11: [recursiveThink] does not read its configuration at all, reads the task
    only through its first 200 characters, and always reports 0 iterations
    and confidence 0 with a prompt of at most 311 characters. *)
Theorem recursiveThink_reads_task_prefix_only :
  forall (task task' : string) (cfg cfg' : PartialThinkingConfig),
    slice0 200 task = slice0 200 task' ->
    recursiveThink task cfg = recursiveThink task' cfg' /\
    resultIterations (recursiveThink task cfg) = 0 /\
    resultConfidence (recursiveThink task cfg) = 0%float /\
    (String.length (result (recursiveThink task cfg)) <= 311)%nat.
Proof.
  intros task task' cfg cfg' Ht. unfold recursiveThink.
  rewrite !initial_prompt_shape by reflexivity. cbn [result resultIterations resultConfidence].
  rewrite Ht. repeat split.
  rewrite !length_append, slice0_length. cbn [String.length DQ NL]. lia.
Qed.

Lemma recursiveThink_reads_task_prefix_only_witness :
  slice0 200 "Build a REST API" = slice0 200 "Build a REST API" /\
  recursiveThink "Build a REST API" emptyConfig
  = recursiveThink "Build a REST API" (mkPartial (Some 9) (Some 0.1%float) None None).
Proof.
  split; [reflexivity|].
  apply (recursiveThink_reads_task_prefix_only "Build a REST API" "Build a REST API"
           emptyConfig (mkPartial (Some 9) (Some 0.1%float) None None)).
  reflexivity.
Defined.

End EngineProperties.

(** ** Properties of the parsed confidence *)

Module ConfidenceProperties.
Import JS Engine Spec Numbers StringFacts Properties EngineProperties.

#[local] Open Scope Z_scope.
#[local] Open Scope string_scope.

(** *** Decimal conversion never yields [NaN] or a negative number *)

Lemma iter_pos_invariant {A : Type} (P : A -> Prop) (f : A -> A) :
  (forall x, P x -> P (f x)) -> forall n x, P x -> P (iter_pos f n x).
Proof.
  intros Hf. induction n as [n IH|n IH|]; intros x Hx; cbn; auto.
Qed.

Lemma shr_1_nonneg mrs : (0 <= shr_m mrs)%Z -> (0 <= shr_m (shr_1 mrs))%Z.
Proof.
  destruct mrs as [m r s]. cbn. destruct m as [|[p|p|]|p]; cbn; lia.
Qed.

Lemma shr_fexp_nonneg m e l :
  (0 <= m)%Z -> (0 <= shr_m (fst (shr_fexp prec emax m e l)))%Z.
Proof.
  intros Hm. unfold shr_fexp, shr.
  assert (H0 : (0 <= shr_m (shr_record_of_loc m l))%Z).
  { destruct l as [|[]]; exact Hm. }
  destruct (fexp prec emax (Zdigits2 m + e) - e)%Z; cbn [fst]; try exact H0.
  apply (iter_pos_invariant (fun r => (0 <= shr_m r)%Z)); [apply shr_1_nonneg | exact H0].
Qed.

Lemma round_nearest_even_nonneg m l : (0 <= m)%Z -> (0 <= round_nearest_even m l)%Z.
Proof.
  intros Hm. unfold round_nearest_even. destruct l as [|[]]; try lia.
  destruct (Z.even m); lia.
Qed.

Lemma binary_round_aux_nonNegative m e l :
  (0 <= m)%Z -> nonNegative (binary_round_aux prec emax false m e l) = true.
Proof.
  intros Hm. unfold binary_round_aux.
  pose proof (shr_fexp_nonneg m e l Hm) as H1.
  destruct (shr_fexp prec emax m e l) as [mrs' e']. cbn [fst] in H1.
  pose proof (shr_fexp_nonneg _ e' loc_Exact
                (round_nearest_even_nonneg _ (loc_of_shr_record mrs') H1)) as H2.
  destruct (shr_fexp prec emax _ e' loc_Exact) as [mrs'' e'']. cbn [fst] in H2.
  destruct (shr_m mrs''); [reflexivity | | lia].
  destruct (e'' <=? emax - prec)%Z; reflexivity.
Qed.

Lemma binary_round_nonNegative m e : nonNegative (binary_round prec emax false m e) = true.
Proof.
  unfold binary_round. destruct (shl_align _ _ _) as [mz ez].
  apply binary_round_aux_nonNegative. lia.
Qed.

Lemma SFdiv_nonNegative p q :
  nonNegative (SFdiv prec emax (S754_finite false p 0) (S754_finite false q 0)) = true.
Proof.
  unfold SFdiv. cbn [xorb].
  destruct (SFdiv_core_binary prec emax (Z.pos p) 0 (Z.pos q) 0) as [[mz ez] lz] eqn:E.
  apply binary_round_aux_nonNegative.
  unfold SFdiv_core_binary in E.
  set (m' := match _ with Z.pos _ => _ | Z0 => _ | Z.neg _ => _ end) in E.
  assert (Hm' : (0 <= m')%Z).
  { subst m'. destruct (0 - 0 - _)%Z; try lia. apply Z.shiftl_nonneg. lia. }
  pose proof (Z_div_mod m' (Z.pos q) ltac:(lia)) as Hd.
  destruct (Z.div_eucl m' (Z.pos q)) as [q' r']. injection E as <- _ _.
  destruct Hd as [Hd Hr]. nia.
Qed.

Lemma Prim2SF_nan f : is_nan f = true -> Prim2SF f = S754_nan.
Proof. intros H. unfold Prim2SF. now rewrite H. Qed.

Lemma nonNegative_number f :
  nonNegative (Prim2SF f) = true -> is_nan f = false /\ (0 <=? f)%float = true.
Proof.
  intros H. split.
  - destruct (is_nan f) eqn:E; [|reflexivity].
    rewrite (Prim2SF_nan f E) in H. discriminate.
  - rewrite FloatAxioms.leb_spec.
    change (Prim2SF 0) with (S754_zero false).
    destruct (Prim2SF f) as [[]|[]| |[] m e]; try discriminate; reflexivity.
Qed.

Lemma SF2Prim_nonNegative x :
  nonNegative x = true -> nonNegative (Prim2SF (SF2Prim x)) = true.
Proof.
  destruct x as [[]|[]| |[] m e]; try discriminate; intros _; try reflexivity.
  unfold SF2Prim. rewrite FloatLemmas.Z_ldexp_spec, FloatAxioms.of_uint63_spec.
  pose proof (Uint63.to_Z_bounded (Uint63.of_Z (Z.pos m))) as Hb.
  destruct (Uint63.to_Z (Uint63.of_Z (Z.pos m))) as [|n|n]; [reflexivity | | lia].
  unfold binary_normalize.
  pose proof (binary_round_nonNegative n 0) as Hn.
  destruct (binary_round prec emax false n 0) as [[]|[]| |[] m' e']; try discriminate;
    try reflexivity.
  cbn [SFldexp]. apply binary_round_nonNegative.
Qed.

Lemma decimalToNumber_number m k :
  is_nan (decimalToNumber m k) = false /\ (0 <=? decimalToNumber m k)%float = true.
Proof.
  unfold decimalToNumber. destruct m as [|p|p]; try (split; reflexivity).
  apply nonNegative_number, SF2Prim_nonNegative, SFdiv_nonNegative.
Qed.

Lemma takeWhile_empty p s : takeWhile p s = "" <-> headFails p s = true.
Proof.
  destruct s as [|c t]; cbn; [tauto|].
  destruct (p c); cbn; split; congruence.
Qed.

Lemma parseFloat_prefix_empty (s : string) :
  takeWhile isDigit s ++
    match dropWhile isDigit s with
    | String "." t => takeWhile isDigit t
    | _ => EmptyString
    end = "" <-> startsWithNumber s = false.
Proof.
  destruct s as [|c t]; [cbn; tauto|].
  destruct c as [[] [] [] [] [] [] [] []];
    try (cbn; split; [discriminate | discriminate]);
    try (cbn; split; reflexivity).
  cbn [takeWhile dropWhile isDigit]. 
  change (isDigit ".") with false. cbn [append startsWithNumber].
  change (isDigit ".") with false. cbn [orb andb Ascii.eqb Bool.eqb].
  rewrite takeWhile_empty. destruct t as [|d t]; cbn [headFails]; [tauto|].
  destruct (isDigit d); cbn; split; intros; congruence.
Qed.

Lemma parseFloat_nan_iff (s : string) :
  is_nan (parseFloat s) = true <-> startsWithNumber s = false.
Proof.
  rewrite <- parseFloat_prefix_empty. unfold parseFloat.
  destruct (takeWhile isDigit s ++ _) as [|c ds] eqn:E.
  - split; reflexivity.
  - rewrite (proj1 (decimalToNumber_number _ _)). split; discriminate.
Qed.

Lemma parseFloat_never_negative (s : string) :
  is_nan (parseFloat s) = true \/ (0 <=? parseFloat s)%float = true.
Proof.
  unfold parseFloat. destruct (takeWhile isDigit s ++ _) as [|c ds].
  - now left.
  - right. apply decimalToNumber_number.
Qed.

Lemma capture_without_number (cap : string) :
  cap <> "" -> allChars isDigitOrDot cap = true ->
  (startsWithNumber cap = false <-> cap = "." \/ exists t, cap = ".." ++ t).
Proof.
  intros Hne Hall. destruct cap as [|c t]; [contradiction|].
  cbn in Hall. apply andb_true_iff in Hall as [Hc Ht].
  unfold isDigitOrDot in Hc. cbn [startsWithNumber].
  destruct (isDigit c) eqn:Ec.
  - split; [discriminate|]. intros [[= -> _] | [t' [= -> _]]]; discriminate Ec.
  - cbn in Hc. apply Ascii.eqb_eq in Hc as ->. cbn [orb andb Ascii.eqb Bool.eqb].
    destruct t as [|d t].
    + split; [now left | reflexivity].
    + cbn in Ht. apply andb_true_iff in Ht as [Hd _]. unfold isDigitOrDot in Hd.
      destruct (isDigit d) eqn:Ed.
      * split; [discriminate|]. intros [[=] | [t' [= -> _]]]. discriminate Ed.
      * cbn in Hd. apply Ascii.eqb_eq in Hd as ->.
        split; [intros _; right; now exists t | reflexivity].
Qed.

Lemma FirstMatch_capture r pre cap :
  FirstMatch r pre cap -> cap <> "" /\ allChars isDigitOrDot cap = true.
Proof.
  intros (s & _ & (token & seps & rest & _ & _ & _ & Hne & Hall & _) & _). now split.
Qed.

(** X12: the parsed confidence is [NaN] exactly when the leftmost match of the
    expression captures a lone dot or a run that begins with two dots: the
    word "confidence", optional separators, then a dot with no digit right
    behind it. *)
Theorem parseConfidence_nan_iff :
  forall r : string,
    is_nan (parseConfidence r) = true <->
    exists pre cap,
      FirstMatch r pre cap /\ (cap = "." \/ exists t, cap = ".." ++ t).
Proof.
  intros r. unfold parseConfidence. destruct (confidenceMatch r) as [cap|] eqn:E.
  - rewrite parseFloat_nan_iff.
    pose proof (proj1 (confidenceMatch_first r cap) E) as [pre Hf].
    destruct (FirstMatch_capture r pre cap Hf) as [Hne Hall].
    rewrite (capture_without_number cap Hne Hall). split.
    + intros H. now exists pre, cap.
    + intros (pre' & cap' & Hf' & H).
      assert (E' : confidenceMatch r = Some cap') by (apply confidenceMatch_first; now exists pre').
      rewrite E in E'. injection E' as ->. exact H.
  - split; [discriminate|]. intros (pre & cap & Hf & _).
    assert (E' : confidenceMatch r = Some cap) by (apply confidenceMatch_first; now exists pre).
    congruence.
Qed.

(** X13: the parsed confidence is never negative: it is [NaN] or at least 0, as
    the capture cannot hold a sign. *)
Theorem parseConfidence_never_negative :
  forall r : string,
    is_nan (parseConfidence r) = true \/ (0 <=? parseConfidence r)%float = true.
Proof.
  intros r. unfold parseConfidence. destruct (confidenceMatch r) as [cap|].
  - apply parseFloat_never_negative.
  - right. reflexivity.
Qed.




(** *** Letter case *)

Ltac each_char c := destruct c as [[] [] [] [] [] [] [] []]; vm_compute; congruence.

Lemma isSeparator_canonicalize c : isSeparator (canonicalize c) = isSeparator c.
Proof. each_char c. Qed.

Lemma isDigitOrDot_canonicalize c : isDigitOrDot (canonicalize c) = isDigitOrDot c.
Proof. each_char c. Qed.

Lemma canonicalize_digitOrDot c : isDigitOrDot c = true -> canonicalize c = c.
Proof. each_char c. Qed.

Lemma canonicalize_lowerChar c : canonicalize (lowerChar c) = canonicalize c.
Proof. each_char c. Qed.

Lemma canonical_toLowerCase s : canonical (toLowerCase s) = canonical s.
Proof.
  induction s as [|c s IH]; cbn [toLowerCase canonical]; [reflexivity|].
  now rewrite canonicalize_lowerChar, IH.
Qed.

Lemma canonical_cons_inv c s s' :
  canonical (String c s) = canonical s' ->
  exists c' t', s' = String c' t' /\ canonicalize c = canonicalize c' /\
                canonical s = canonical t'.
Proof.
  destruct s' as [|c' t']; cbn; [discriminate|]. intros [= Hc Hs]. now exists c', t'.
Qed.

Lemma canonical_nil_inv s' : canonical "" = canonical s' -> s' = "".
Proof. destruct s'; cbn; [reflexivity | discriminate]. Qed.

Lemma matchLiteral_canonical pat s s' :
  canonical s = canonical s' ->
  match matchLiteral pat s, matchLiteral pat s' with
  | Some a, Some b => canonical a = canonical b
  | None, None => True
  | _, _ => False
  end.
Proof.
  revert s s'; induction pat as [|p pat IH]; intros s s' H.
  - destruct s, s'; cbn in *; try discriminate; assumption.
  - destruct s as [|c s].
    + apply canonical_nil_inv in H as ->. exact I.
    + apply canonical_cons_inv in H as (c' & t' & -> & Hc & Hs). cbn [matchLiteral].
      rewrite <- Hc. destruct (Ascii.eqb (canonicalize p) (canonicalize c)); [|exact I].
      now apply IH.
Qed.

Lemma dropWhile_separator_canonical s s' :
  canonical s = canonical s' ->
  canonical (dropWhile isSeparator s) = canonical (dropWhile isSeparator s').
Proof.
  revert s'; induction s as [|c s IH]; intros s' H.
  - now apply canonical_nil_inv in H as ->.
  - pose proof H as H0. apply canonical_cons_inv in H as (c' & t' & -> & Hc & Hs).
    cbn [dropWhile]. rewrite <- (isSeparator_canonicalize c), Hc, isSeparator_canonicalize.
    destruct (isSeparator c'); [now apply IH | exact H0].
Qed.

Lemma takeWhile_digitOrDot_canonical s s' :
  canonical s = canonical s' ->
  takeWhile isDigitOrDot s = takeWhile isDigitOrDot s'.
Proof.
  revert s'; induction s as [|c s IH]; intros s' H.
  - now apply canonical_nil_inv in H as ->.
  - apply canonical_cons_inv in H as (c' & t' & -> & Hc & Hs). cbn [takeWhile].
    assert (Hd : isDigitOrDot c = isDigitOrDot c').
    { now rewrite <- (isDigitOrDot_canonicalize c), Hc, isDigitOrDot_canonicalize. }
    rewrite <- Hd. destruct (isDigitOrDot c) eqn:E; [|reflexivity].
    rewrite (IH t' Hs). f_equal.
    rewrite <- (canonicalize_digitOrDot c E), Hc.
    apply canonicalize_digitOrDot. now rewrite <- Hd.
Qed.

Lemma matchHere_canonical s s' : canonical s = canonical s' -> matchHere s = matchHere s'.
Proof.
  intros H. unfold matchHere.
  pose proof (matchLiteral_canonical "confidence" s s' H) as Hm.
  destruct (matchLiteral "confidence" s) as [a|], (matchLiteral "confidence" s') as [b|];
    try contradiction; [|reflexivity].
  now rewrite (takeWhile_digitOrDot_canonical _ _ (dropWhile_separator_canonical _ _ Hm)).
Qed.

Lemma confidenceMatch_canonical s s' :
  canonical s = canonical s' -> confidenceMatch s = confidenceMatch s'.
Proof.
  revert s'; induction s as [|c s IH]; intros s' H.
  - now apply canonical_nil_inv in H as ->.
  - pose proof (matchHere_canonical _ _ H) as Hh.
    apply canonical_cons_inv in H as (c' & t' & -> & Hc & Hs).
    cbn [confidenceMatch]. rewrite Hh. destruct (matchHere (String c' t')); [reflexivity|].
    now apply IH.
Qed.

(** X15: the parsed confidence does not depend on the letter case of the
    response: two responses that differ only in letter case give the same
    confidence, as do a response and its lower-cased form. *)
Theorem parseConfidence_ignores_letter_case :
  (forall r r', canonical r = canonical r' -> parseConfidence r = parseConfidence r') /\
  (forall r, parseConfidence (toLowerCase r) = parseConfidence r).
Proof.
  assert (H : forall r r', canonical r = canonical r' -> parseConfidence r = parseConfidence r').
  { intros r r' E. unfold parseConfidence. now rewrite (confidenceMatch_canonical r r' E). }
  split; [exact H|]. intros r. apply H, canonical_toLowerCase.
Qed.

Lemma parseConfidence_ignores_letter_case_witness :
  canonical "Confidence: 0.7 (High)" = canonical "CONFIDENCE: 0.7 (high)" /\
  parseConfidence "Confidence: 0.7 (High)" = parseConfidence "CONFIDENCE: 0.7 (high)".
Proof.
  split.
  - reflexivity.
  - apply (proj1 parseConfidence_ignores_letter_case). reflexivity.
Defined.

(** *** Text after the response *)

Lemma takeWhile_append_cases p a b :
  takeWhile p (a ++ b) = takeWhile p a ++ (if allChars p a then takeWhile p b else "").
Proof.
  induction a as [|c a IH]; cbn; [reflexivity|].
  destruct (p c); cbn; [now rewrite IH | reflexivity].
Qed.

Lemma dropWhile_append_nonempty p a b :
  dropWhile p a <> "" -> dropWhile p (a ++ b) = dropWhile p a ++ b.
Proof.
  induction a as [|c a IH]; cbn; [contradiction|].
  destruct (p c); [exact IH | reflexivity].
Qed.

Lemma dropWhile_all p a : allChars p a = true -> dropWhile p a = "".
Proof.
  induction a as [|c a IH]; cbn; [reflexivity|].
  intros [-> H]%andb_true_iff. now apply IH.
Qed.

Lemma dropWhile_empty_all p a : dropWhile p a = "" -> allChars p a = true.
Proof.
  induction a as [|c a IH]; cbn; [reflexivity|].
  destruct (p c); [exact IH | discriminate].
Qed.

Lemma parseFloat_trailing_dot (cap : string) : parseFloat (cap ++ ".") = parseFloat cap.
Proof.
  unfold parseFloat. rewrite takeWhile_append_cases.
  replace (if allChars isDigit cap then takeWhile isDigit "." else "") with ""
    by (destruct (allChars isDigit cap); reflexivity).
  rewrite append_nil_r.
  destruct (dropWhile isDigit cap) as [|c t] eqn:E.
  - rewrite <- (append_nil_r cap) at 1.
    pose proof (dropWhile_empty_all _ _ E) as Hall.
    assert (E' : dropWhile isDigit (cap ++ ".") = ".").
    { clear E. induction cap as [|d cap IH]; cbn in *; [reflexivity|].
      apply andb_true_iff in Hall as [-> Hall]. now apply IH. }
    rewrite append_nil_r, E'. reflexivity.
  - rewrite dropWhile_append_nonempty, E by (rewrite E; discriminate).
    cbn [append].
    destruct c as [[] [] [] [] [] [] [] []]; try reflexivity.
    rewrite takeWhile_append_cases.
    replace (if allChars isDigit t then takeWhile isDigit "." else "") with ""
      by (destruct (allChars isDigit t); reflexivity).
    now rewrite append_nil_r.
Qed.

Lemma matchLiteral_append pat s rest x :
  matchLiteral pat s = Some rest -> matchLiteral pat (s ++ x) = Some (rest ++ x).
Proof.
  revert s; induction pat as [|p pat IH]; intros s.
  - destruct s; cbn; intros [= <-]; [destruct x |]; reflexivity.
  - destruct s as [|c s]; cbn; [discriminate|].
    destruct (Ascii.eqb (canonicalize p) (canonicalize c)); [apply IH | discriminate].
Qed.

Lemma matchLiteral_append_none pat s x :
  noDigitOrDot (canonical pat) = true ->
  matchLiteral pat s = None -> noDigitOrDot s = false ->
  matchLiteral pat (s ++ x) = None.
Proof.
  unfold noDigitOrDot. revert s; induction pat as [|p pat IH]; intros s Hp Hm Hs.
  - destruct s; discriminate.
  - destruct s as [|c s]; [discriminate|]. cbn in *.
    apply andb_true_iff in Hp as [Hp1 Hp2].
    destruct (Ascii.eqb_spec (canonicalize p) (canonicalize c)) as [E|]; [|reflexivity].
    apply IH; [exact Hp2 | exact Hm |].
    rewrite E, isDigitOrDot_canonicalize in Hp1. now rewrite Hp1 in Hs.
Qed.

Lemma token_noDigitOrDot token :
  canonical token = "CONFIDENCE" -> noDigitOrDot token = true.
Proof.
  unfold noDigitOrDot. intros H.
  assert (G : forall s, noDigitOrDot (canonical s) = true -> noDigitOrDot s = true).
  { unfold noDigitOrDot. induction s as [|c s IH]; cbn; [reflexivity|].
    rewrite isDigitOrDot_canonicalize. intros [-> Hs]%andb_true_iff. now apply IH. }
  apply G. now rewrite H.
Qed.

Lemma separators_noDigitOrDot s : allChars isSeparator s = true -> noDigitOrDot s = true.
Proof.
  unfold noDigitOrDot. induction s as [|c s IH]; cbn; [reflexivity|].
  intros [Hc Hs]%andb_true_iff. rewrite (IH Hs), andb_true_r.
  destruct (isDigitOrDot c) eqn:E; [|reflexivity].
  rewrite (separator_not_digitOrDot c E) in Hc. discriminate.
Qed.

Lemma matchHere_append_none s x :
  matchHere s = None -> noDigitOrDot s = false -> matchHere (s ++ x) = None.
Proof.
  unfold matchHere. intros Hm Hs.
  destruct (matchLiteral "confidence" s) as [rest|] eqn:E.
  - destruct (matchLiteral_sound _ _ _ E) as [token [-> Ht]].
    rewrite (matchLiteral_append _ _ _ x E).
    destruct (dropWhile isSeparator rest) as [|d D] eqn:ED.
    + exfalso. unfold noDigitOrDot in Hs. rewrite allChars_append in Hs.
      fold (noDigitOrDot token) in Hs. fold (noDigitOrDot rest) in Hs.
      rewrite (token_noDigitOrDot token Ht) in Hs.
      rewrite (separators_noDigitOrDot rest (dropWhile_empty_all _ _ ED)) in Hs.
      discriminate.
    + rewrite dropWhile_append_nonempty, ED by (rewrite ED; discriminate).
      cbn [append takeWhile] in *. destruct (isDigitOrDot d); [discriminate | reflexivity].
  - now rewrite (matchLiteral_append_none "confidence" s x).
Qed.

Lemma matchHere_append s cap x :
  matchHere s = Some cap ->
  exists more, matchHere (s ++ x) = Some (cap ++ more) /\
               (more = "" \/ more = takeWhile isDigitOrDot x).
Proof.
  unfold matchHere. destruct (matchLiteral "confidence" s) as [rest|] eqn:E; [|discriminate].
  rewrite (matchLiteral_append _ _ _ x E).
  destruct (takeWhile isDigitOrDot (dropWhile isSeparator rest)) as [|c t] eqn:Ec;
    [discriminate|].
  intros [= <-].
  assert (HD : dropWhile isSeparator rest <> "").
  { intros H0. rewrite H0 in Ec. discriminate. }
  rewrite (dropWhile_append_nonempty _ _ x HD), takeWhile_append_cases, Ec.
  exists (if allChars isDigitOrDot (dropWhile isSeparator rest)
          then takeWhile isDigitOrDot x else "").
  split; [reflexivity|].
  destruct (allChars isDigitOrDot (dropWhile isSeparator rest)); auto.
Qed.

Lemma matchHere_some_digitOrDot s cap : matchHere s = Some cap -> noDigitOrDot s = false.
Proof.
  intros (token & seps & rest & -> & _ & _ & Hne & Hall & _)%matchHere_spec.
  unfold noDigitOrDot. rewrite !allChars_append.
  destruct cap as [|c cap]; [contradiction|]. cbn in *.
  apply andb_true_iff in Hall as [-> _]. cbn.
  now rewrite !andb_false_r.
Qed.

Lemma confidenceMatch_some_digitOrDot s cap :
  confidenceMatch s = Some cap -> noDigitOrDot s = false.
Proof.
  induction s as [|c s IH]; [discriminate|].
  destruct (matchHere (String c s)) as [cap'|] eqn:E.
  - intros _. exact (matchHere_some_digitOrDot _ _ E).
  - rewrite (confidenceMatch_skip _ _ E). intros H%IH.
    unfold noDigitOrDot in *. cbn. now rewrite H, andb_false_r.
Qed.

Lemma confidenceMatch_append s cap x :
  confidenceMatch s = Some cap ->
  exists more, confidenceMatch (s ++ x) = Some (cap ++ more) /\
               (more = "" \/ more = takeWhile isDigitOrDot x).
Proof.
  induction s as [|c s IH]; [discriminate|].
  destruct (matchHere (String c s)) as [cap'|] eqn:E.
  - rewrite (confidenceMatch_here _ _ E). intros [= ->].
    destruct (matchHere_append _ _ x E) as (more & Hm & Hc).
    exists more. split; [now apply confidenceMatch_here | exact Hc].
  - rewrite (confidenceMatch_skip _ _ E). intros H.
    assert (Hn : matchHere (String c s ++ x) = None).
    { apply matchHere_append_none; [exact E|].
      pose proof (confidenceMatch_some_digitOrDot _ _ H) as Hd.
      unfold noDigitOrDot in *. cbn. now rewrite Hd, andb_false_r. }
    cbn [append] in *. rewrite (confidenceMatch_skip _ _ Hn). now apply IH.
Qed.

(** X16: a full stop put right after the response, with any text behind it that
    does not begin with a digit or a dot, leaves the parsed confidence as
    it is, provided the expression matches somewhere in the response. *)
Theorem full_stop_after_response_harmless :
  forall r tail : string,
    confidenceMatch r <> None ->
    headFails isDigitOrDot tail = true ->
    parseConfidence (r ++ "." ++ tail) = parseConfidence r.
Proof.
  intros r tail Hm Ht. unfold parseConfidence.
  destruct (confidenceMatch r) as [cap|] eqn:E; [|contradiction].
  destruct (confidenceMatch_append r cap ("." ++ tail) E) as (more & -> & [-> | ->]).
  - now rewrite append_nil_r.
  - cbn [append takeWhile]. change (isDigitOrDot ".") with true. cbv iota.
    rewrite (proj2 (takeWhile_empty isDigitOrDot tail) Ht).
    apply parseFloat_trailing_dot.
Qed.

Lemma full_stop_after_response_harmless_witness :
  confidenceMatch "I am done, confidence: 0.9" <> None /\
  headFails isDigitOrDot " Thanks" = true /\
  parseConfidence ("I am done, confidence: 0.9" ++ "." ++ " Thanks")
  = parseConfidence "I am done, confidence: 0.9".
Proof.
  assert (H : confidenceMatch "I am done, confidence: 0.9" <> None).
  { vm_compute. discriminate. }
  split; [exact H|]. split; [reflexivity|].
  apply (full_stop_after_response_harmless "I am done, confidence: 0.9" " Thanks" H).
  reflexivity.
Defined.

End ConfidenceProperties.

(** ** Properties of the tool-call handler *)

Module ServerProperties.
Import JS Engine Spec Server ServerSpec StringFacts Properties EngineProperties.

#[local] Open Scope Z_scope.
#[local] Open Scope string_scope.

Lemma missing_true (s : option string) :
  missing s = true <-> s = None \/ s = Some "".
Proof.
  destruct s as [[|c t]|]; cbn; split; try tauto; try discriminate.
  - intros [H | H]; discriminate.
Qed.

Lemma blank_task (t : string) :
  negb (truthy t) || (String.length (trim t) =? 0)%nat = true <-> Blank t.
Proof.
  rewrite <- truthy_trim, orb_true_iff. split.
  - intros [H | H].
    + destruct t; [reflexivity | discriminate].
    + apply Nat.eqb_eq in H. now destruct (trim t).
  - intros H. right. now destruct (trim t).
Qed.

Lemma sessionsSet_same m k v : sessionsGet (sessionsSet m k v) k = Some v.
Proof. unfold sessionsGet, sessionsSet. now rewrite String.eqb_refl. Qed.

Lemma sessionsSet_other m k v k' : k' <> k -> sessionsGet (sessionsSet m k v) k' = sessionsGet m k'.
Proof.
  intros H. unfold sessionsGet, sessionsSet. now apply String.eqb_neq in H as ->.
Qed.

Lemma handleCallTool_cases g req m : Handled g req m (handleCallTool g req m).
Proof.
  unfold handleCallTool. fold (addressed g req).
  destruct (String.eqb_spec (name req) "recursive_thinking") as [Hn|Hn]; cbn [negb];
    [|now apply H_unknown_tool].
  destruct (String.eqb_spec (action (arguments req)) "start") as [Ha|Ha].
  - destruct (task (arguments req)) as [t|] eqn:Et.
    + destruct (negb (truthy t) || (String.length (trim t) =? 0)%nat) eqn:Eb.
      * apply H_no_task; auto. right. exists t. split; [exact Et|]. now apply blank_task.
      * apply (H_started g req m t); auto. intros Hb%blank_task. congruence.
    + apply H_no_task; auto.
  - destruct (String.eqb_spec (action (arguments req)) "iterate") as [Hi|Hi];
      [|now apply H_invalid_action].
    destruct (sessionsGet m (addressed g req)) as [st|] eqn:Es; [|now apply H_no_session].
    destruct (response (arguments req)) as [resp|] eqn:Er;
      [|apply (H_no_response g req m st); auto; now rewrite Er].
    destruct (truthy resp) eqn:Et; cbn [negb].
    + assert (Hne : resp <> "") by (intros ->; discriminate).
      set (r := processIteration _ resp st _).
      destruct (stops resp st (configOrDefault (config (arguments req)))) eqn:Estop.
      * destruct (processIteration_stops
                    (match iterations st with first :: _ => orElse first resp | [] => resp end)
                    resp st _ Estop) as [Hp Hc].
        fold r in Hp, Hc. rewrite Hp. now apply (H_finished g req m st resp).
      * destruct (processIteration_continues
                    (match iterations st with first :: _ => orElse first resp | [] => resp end)
                    resp st _ Estop) as [Hp Hc].
        fold r in Hp, Hc. rewrite Hp, Hc.
        match goal with |- context [truthy ?p] => set (prompt := p) in * end.
        assert (Hpne : prompt <> "") by apply generateThinkingPrompt_not_empty.
        destruct prompt as [|c p] eqn:Eprompt; [contradiction|]. cbn [truthy negb orb].
        apply (H_continuing g req m st resp (String c p)); auto.
    + apply (H_no_response g req m st); auto. rewrite Er. cbn. now rewrite Et.
Qed.

Ltac handled g req m :=
  let out := fresh "out" in
  let H := fresh "H" in
  pose proof (handleCallTool_cases g req m) as H;
  set (out := handleCallTool g req m) in *; clearbody out;
  destruct H; cbn [fst snd] in *.

(** X17: the handler throws exactly when the tool name is wrong, [start]
    comes without a task or with a blank one, [iterate] addresses a session
    that is not stored or comes without a response or with an empty one, or
    the action is neither; and a call that throws leaves the session map as
    it was.  In particular [iterate] is never refused because the session
    is complete. *)
Theorem handler_throws_exactly_when :
  forall (g : string) (req : CallToolRequest) (m : Sessions),
    ((exists msg, snd (handleCallTool g req m) = Threw msg) <->
     name req <> "recursive_thinking" \/
     (action (arguments req) = "start" /\
      (task (arguments req) = None \/
       exists t, task (arguments req) = Some t /\ Blank t)) \/
     (action (arguments req) = "iterate" /\
      (sessionsGet m (addressed g req) = None \/
       missing (response (arguments req)) = true)) \/
     (action (arguments req) <> "start" /\ action (arguments req) <> "iterate")) /\
    (forall msg, snd (handleCallTool g req m) = Threw msg ->
                 fst (handleCallTool g req m) = m).
Proof.
  intros g req m. handled g req m.
  - split; [|reflexivity]. split; [now left | intros _; eauto].
  - split; [|reflexivity]. split; [intros _; right; left; now split | intros _; eauto].
  - split; [|discriminate]. split; [intros [msg Hm]; discriminate|].
    intros [Hc | [[_ [Hc | (t' & Hc & Hb)]] | [[Hc _] | [Hc _]]]]; try congruence;
      try (rewrite H1 in Hc; injection Hc as <-; contradiction).
  - split; [|reflexivity].
    split; [intros _; right; right; left; split; auto | intros _; eauto].
  - split; [|reflexivity].
    split; [intros _; right; right; left; split; auto | intros _; eauto].
  - split; [|discriminate]. split; [intros [msg Hm]; discriminate|].
    intros [Hc | [[Hc _] | [[_ [Hc | Hc]] | [_ Hc]]]]; try congruence;
      try (rewrite H2 in Hc; cbn in Hc; destruct resp; [contradiction | discriminate]).
  - split; [|discriminate]. split; [intros [msg Hm]; discriminate|].
    intros [Hc | [[Hc _] | [[_ [Hc | Hc]] | [_ Hc]]]]; try congruence;
      try (rewrite H2 in Hc; cbn in Hc; destruct resp; [contradiction | discriminate]).
  - split; [|reflexivity].
    split; [intros _; right; right; right; split; auto | intros _; eauto].
Qed.

(** X18: a call changes no session but the one it addresses. *)
Theorem handler_touches_addressed_session_only :
  forall (g : string) (req : CallToolRequest) (m : Sessions) (key : string),
    key <> addressed g req ->
    sessionsGet (fst (handleCallTool g req m)) key = sessionsGet m key.
Proof.
  intros g req m key Hk. handled g req m; try reflexivity;
    now apply sessionsSet_other.
Qed.

Lemma handler_touches_addressed_session_only_witness :
  "other" <> addressed "session_1_abc" (startRequest "mine" "Build a REST API" None) /\
  sessionsGet
    (fst (handleCallTool "session_1_abc" (startRequest "mine" "Build a REST API" None)
            (sessionsSet noSessions "other" (mkState 1 0.5 ["a"] "a" false))))
    "other"
  = sessionsGet (sessionsSet noSessions "other" (mkState 1 0.5 ["a"] "a" false)) "other".
Proof.
  split.
  - discriminate.
  - apply (handler_touches_addressed_session_only "session_1_abc"
             (startRequest "mine" "Build a REST API" None)
             (sessionsSet noSessions "other" (mkState 1 0.5 ["a"] "a" false)) "other").
    discriminate.
Defined.

Lemma handler_throws_exactly_when_witness :
  snd (handleCallTool "session_1_abc" (iterateRequest "nobody" "an answer" None) noSessions)
  = Threw "Session nobody not found. Start with action=start first." /\
  fst (handleCallTool "session_1_abc" (iterateRequest "nobody" "an answer" None) noSessions)
  = noSessions.
Proof.
  split.
  - reflexivity.
  - apply (proj2 (handler_throws_exactly_when "session_1_abc"
                    (iterateRequest "nobody" "an answer" None) noSessions)
             "Session nobody not found. Start with action=start first.").
    reflexivity.
Defined.

(** X19: a successful [start] stores the initial state under the addressed
    identifier, replacing whatever was stored there, and stores nothing of
    the task or the configuration: two [start] calls for the same session
    leave the same session map whatever their tasks and configurations. *)
Theorem start_resets_and_forgets_task :
  forall (g : string) (req req' : CallToolRequest) (m : Sessions) (t t' : string),
    name req = "recursive_thinking" -> name req' = "recursive_thinking" ->
    action (arguments req) = "start" -> action (arguments req') = "start" ->
    sessionId (arguments req) = sessionId (arguments req') ->
    task (arguments req) = Some t -> ~ Blank t ->
    task (arguments req') = Some t' -> ~ Blank t' ->
    sessionsGet (fst (handleCallTool g req m)) (addressed g req) = Some initialState /\
    fst (handleCallTool g req m) = fst (handleCallTool g req' m).
Proof.
  intros g req req' m t t' Hn Hn' Ha Ha' Hs Ht Hb Ht' Hb'.
  assert (Hadd : addressed g req = addressed g req') by (unfold addressed; now rewrite Hs).
  assert (G : forall r u, name r = "recursive_thinking" -> action (arguments r) = "start" ->
              task (arguments r) = Some u -> ~ Blank u ->
              fst (handleCallTool g r m) = sessionsSet m (addressed g r) initialState).
  { intros r u Hrn Hra Hrt Hrb. handled g r m; try congruence; try reflexivity.
    exfalso. destruct H1 as [H1 | (u' & H1 & Hu')]; [congruence|].
    rewrite Hrt in H1. injection H1 as <-. contradiction. }
  rewrite (G req t Hn Ha Ht Hb), (G req' t' Hn' Ha' Ht' Hb'), Hadd.
  split; [apply sessionsSet_same | reflexivity].
Qed.

Lemma Consistent_initial : Consistent initialState.
Proof. repeat split. constructor. Qed.

Lemma Consistent_step task resp st cfg :
  Consistent st -> resp <> "" -> Consistent (state (processIteration task resp st cfg)).
Proof.
  intros (Hd & Hall & Hl) Hne. unfold Consistent.
  destruct (processIteration_state task resp st cfg) as (-> & _ & -> & ->).
  rewrite length_app, Nat2Z.inj_add, last_last. cbn [length]. repeat split.
  - lia.
  - apply Forall_app. split; [exact Hall | now repeat constructor].
Qed.

Lemma handler_keeps_consistency g req m :
  AllConsistent m -> AllConsistent (fst (handleCallTool g req m)).
Proof.
  intros Hm. handled g req m; try exact Hm; intros key st' Hk.
  - destruct (String.eqb_spec key (addressed g req)) as [->|Hne].
    + rewrite sessionsSet_same in Hk. injection Hk as <-. apply Consistent_initial.
    + rewrite sessionsSet_other in Hk by exact Hne. exact (Hm key st' Hk).
  - destruct (String.eqb_spec key (addressed g req)) as [->|Hne].
    + rewrite sessionsSet_same in Hk. injection Hk as <-.
      apply Consistent_step; [exact (Hm _ _ H1) | assumption].
    + rewrite sessionsSet_other in Hk by exact Hne. exact (Hm key st' Hk).
  - destruct (String.eqb_spec key (addressed g req)) as [->|Hne].
    + rewrite sessionsSet_same in Hk. injection Hk as <-.
      apply Consistent_step; [exact (Hm _ _ H1) | assumption].
    + rewrite sessionsSet_other in Hk by exact Hne. exact (Hm key st' Hk).
Qed.

Lemma handleAll_snoc calls c m :
  handleAll (calls ++ [c]) m = fst (handleCallTool (fst c) (snd c) (handleAll calls m)).
Proof. unfold handleAll. now rewrite fold_left_app. Qed.

(** X20: every state the server ever stores, from the empty map through
    any sequence of calls, has [depth] equal to the number of recorded
    responses, no empty response recorded, and [lastResult] equal to the
    latest one. *)
Theorem stored_states_consistent :
  forall (calls : list Incoming) (key : string) (st : ThinkingState),
    sessionsGet (handleAll calls noSessions) key = Some st ->
    depth st = Z.of_nat (length (iterations st)) /\
    Forall (fun r => r <> EmptyString) (iterations st) /\
    lastResult st = last (iterations st) EmptyString.
Proof.
  intros calls. change (AllConsistent (handleAll calls noSessions)).
  induction calls as [|c calls IH] using rev_ind.
  - intros key st H. discriminate H.
  - rewrite handleAll_snoc. now apply handler_keeps_consistency.
Qed.

Lemma stored_states_consistent_witness :
  let calls := [("g1", startRequest "s" "Build a REST API" None);
                ("g2", iterateRequest "s" "Use Express" None)] in
  let st := mkState 1 0.5 ["Use Express"] "Use Express" false in
  sessionsGet (handleAll calls noSessions) "s" = Some st /\
  depth st = Z.of_nat (length (iterations st)).
Proof.
  split.
  - vm_compute. reflexivity.
  - apply (stored_states_consistent
             [("g1", startRequest "s" "Build a REST API" None);
              ("g2", iterateRequest "s" "Use Express" None)] "s").
    vm_compute. reflexivity.
Defined.

(** The task the handler passes on is the first recorded response, or the
    current one when none is recorded. *)
Lemma original_task_is_first_response st resp :
  Consistent st ->
  match iterations st with
  | first :: _ => orElse first resp
  | [] => resp
  end = hd resp (iterations st).
Proof.
  intros (_ & Hall & _). destruct (iterations st) as [|first rest]; [reflexivity|].
  inversion Hall as [|? ? Hf _]; subst. cbn. unfold orElse.
  destruct first; [contradiction | reflexivity].
Qed.

(** X21: an [iterate] call that returns has stored a state under the
    addressed identifier and reports that state: the final reply exactly
    when the stored state is complete, with its depth, confidence,
    iterations and last result; otherwise the continuation reply, with a
    non-empty prompt and the stored depth and confidence. *)
Theorem iterate_reply_reports_stored_state :
  forall (g : string) (req : CallToolRequest) (m : Sessions) (reply : Reply),
    action (arguments req) = "iterate" ->
    snd (handleCallTool g req m) = Returned reply ->
    exists st',
      sessionsGet (fst (handleCallTool g req m)) (addressed g req) = Some st' /\
      ((isComplete st' = true /\
        reply = Finished (addressed g req) true (depth st') (confidence st')
                  (iterations st') (lastResult st')
                  "Production-ready solution achieved. Review iterations for full context.")
       \/
       (isComplete st' = false /\
        exists prompt,
          prompt <> "" /\
          reply = Continuing (addressed g req) prompt (depth st') (confidence st') false
                    "Continue iterating until isComplete=true")).
Proof.
  intros g req m reply Ha. handled g req m; try discriminate; try congruence.
  - intros [= <-]. eexists. split; [apply sessionsSet_same|]. left. now split.
  - intros [= <-]. eexists. split; [apply sessionsSet_same|]. right.
    split; [assumption|]. now exists prompt.
Qed.

(** X22: the prompt of a continuation reply quotes as the task the first
    response recorded in the session (the current response on the first
    [iterate]), cut to 100 characters; the task given to [start] is not
    involved.  The depth it reports is the stored depth plus one. *)
Theorem refinement_prompt_quotes_first_response :
  forall (g : string) (req : CallToolRequest) (m : Sessions) (st : ThinkingState)
         (sid prompt instruction : string) (d : Z) (c : float) (b : bool),
    sessionsGet m (addressed g req) = Some st ->
    Consistent st ->
    snd (handleCallTool g req m) = Returned (Continuing sid prompt d c b instruction) ->
    exists resp,
      response (arguments req) = Some resp /\
      d = depth st + 1 /\
      Substring ("Task: " ++ DQ ++ slice0 100 (hd resp (iterations st)) ++ "..." ++ DQ ++ NL)
                prompt.
Proof.
  intros g req m st sid prompt instruction d c b Hs Hc. handled g req m; try discriminate.
  intros [= <- <- <- <- <- <-]. exists resp. rewrite Hs in H1. injection H1 as <-.
  split; [assumption|]. subst r.
  rewrite (original_task_is_first_response st resp Hc) in *.
  destruct (processIteration_state (hd resp (iterations st)) resp st
              (configOrDefault (config (arguments req)))) as (Hd & _).
  split; [exact Hd|].
  assert (Hstop : stops resp st (configOrDefault (config (arguments req))) = false).
  { rewrite <- isComplete_stops with (task := hd resp (iterations st)). assumption. }
  destruct (processIteration_continues (hd resp (iterations st)) resp st _ Hstop) as [Hp _].
  rewrite Hp in H5. injection H5 as <-.
  apply refinement_prompt_task_line. cbn [depth]. destruct Hc as (Hdepth & _). lia.
Qed.

Lemma orElse_given sid g : sid <> "" -> orElse sid g = sid.
Proof. intros H. unfold orElse. destruct sid; [contradiction | reflexivity]. Qed.

Lemma iterate_store g sid r c m st anyTask :
  sid <> "" -> r <> "" -> sessionsGet m sid = Some st ->
  fst (handleCallTool g (iterateRequest sid r c) m)
  = sessionsSet m sid (state (processIteration anyTask r st (configOrDefault c))).
Proof.
  intros Hsid Hr Hs.
  assert (Ha : addressed g (iterateRequest sid r c) = sid) by (now apply orElse_given).
  handled g (iterateRequest sid r c) m; cbn [name arguments action response config iterateRequest] in *;
    try discriminate; try congruence; try contradiction.
  - rewrite Ha in *. rewrite Hs in H1. destruct r; [contradiction | discriminate].
  - rewrite Ha in *. rewrite Hs in H1. injection H1 as <-. injection H2 as <-.
    f_equal. apply state_ignores_task.
  - rewrite Ha in *. rewrite Hs in H1. injection H1 as <-. injection H2 as <-.
    f_equal. apply state_ignores_task.
Qed.

Lemma start_store g sid t c m :
  sid <> "" -> ~ Blank t ->
  fst (handleCallTool g (startRequest sid t c) m) = sessionsSet m sid initialState.
Proof.
  intros Hsid Hb.
  assert (Ha : addressed g (startRequest sid t c) = sid) by (now apply orElse_given).
  handled g (startRequest sid t c) m; cbn [name arguments action task startRequest] in *;
    try discriminate; try congruence; try contradiction;
    try (destruct H1 as [H1 | (u & [= <-] & Hu)]; [discriminate | contradiction]);
    try (now rewrite Ha).
Qed.

Lemma iterates_follow_engine sid anyTask turns :
  sid <> "" -> Forall (fun t => turnResponse t <> "") turns ->
  forall m st,
    sessionsGet m sid = Some st ->
    sessionsGet (handleAll (map (toIncoming sid) turns) m) sid
    = Some (runCalls (map (toCall anyTask) turns) st).
Proof.
  intros Hsid Hall. induction Hall as [|t turns Ht Hall IH]; intros m st Hs.
  - exact Hs.
  - cbn [map handleAll runCalls fold_left toIncoming toCall fst snd
         callTask callResponse callConfig].
    rewrite (iterate_store _ sid _ _ m st anyTask Hsid Ht Hs).
    apply IH. apply sessionsSet_same.
Qed.

(** X23: after a [start] and any number of [iterate] calls with non-empty
    responses on one session, the stored state is the state the engine
    reaches from the initial state by one [processIteration] per response,
    each with the configuration of its call; the task argument does not
    matter for it. *)
Theorem session_store_follows_engine :
  forall (m : Sessions) (g0 sid task anyTask : string)
         (cfg0 : option PartialThinkingConfig) (turns : list Turn),
    sid <> "" -> ~ Blank task ->
    Forall (fun t => turnResponse t <> "") turns ->
    sessionsGet
      (handleAll ((g0, startRequest sid task cfg0) :: map (toIncoming sid) turns) m) sid
    = Some (runCalls (map (toCall anyTask) turns) initialState).
Proof.
  intros m g0 sid task anyTask cfg0 turns Hsid Hb Hall.
  cbn [handleAll fold_left fst snd].
  rewrite (start_store g0 sid task cfg0 m Hsid Hb).
  apply (iterates_follow_engine sid anyTask turns Hsid Hall). apply sessionsSet_same.
Qed.

Lemma start_resets_and_forgets_task_witness :
  let m := sessionsSet noSessions "s" (mkState 3 0.9 ["a"; "b"; "c"] "c" true) in
  let req := startRequest "s" "Build a REST API" None in
  let req' := startRequest "s" "Something else"
                (Some (mkPartial (Some 2) None None None)) in
  ~ Blank "Build a REST API" /\ ~ Blank "Something else" /\
  sessionsGet (fst (handleCallTool "g" req m)) (addressed "g" req) = Some initialState /\
  fst (handleCallTool "g" req m) = fst (handleCallTool "g" req' m).
Proof.
  assert (H1 : ~ Blank "Build a REST API") by (intros H; discriminate H).
  assert (H2 : ~ Blank "Something else") by (intros H; discriminate H).
  split; [exact H1|]. split; [exact H2|].
  exact (start_resets_and_forgets_task "g"
           (startRequest "s" "Build a REST API" None)
           (startRequest "s" "Something else" (Some (mkPartial (Some 2) None None None)))
           (sessionsSet noSessions "s" (mkState 3 0.9 ["a"; "b"; "c"] "c" true))
           "Build a REST API" "Something else"
           eq_refl eq_refl eq_refl eq_refl eq_refl eq_refl H1 eq_refl H2).
Defined.

Lemma iterate_reply_reports_stored_state_witness :
  let m := sessionsSet noSessions "s" initialState in
  let req := iterateRequest "s" "Use Express, confidence: 0.4" None in
  exists reply,
    snd (handleCallTool "g" req m) = Returned reply /\
    exists st', sessionsGet (fst (handleCallTool "g" req m)) (addressed "g" req) = Some st'.
Proof.
  eexists. split; [vm_compute; reflexivity|].
  destruct (iterate_reply_reports_stored_state "g"
              (iterateRequest "s" "Use Express, confidence: 0.4" None)
              (sessionsSet noSessions "s" initialState) _ eq_refl
              ltac:(vm_compute; reflexivity)) as (st' & Hs & _).
  now exists st'.
Defined.

Lemma refinement_prompt_quotes_first_response_witness :
  let st := mkState 1 0.4 ["Use Express"] "Use Express" false in
  let m := sessionsSet noSessions "s" st in
  let req := iterateRequest "s" "Add tests, confidence: 0.5" None in
  sessionsGet m (addressed "g" req) = Some st /\ Consistent st /\
  exists sid prompt d c b instruction,
    snd (handleCallTool "g" req m) = Returned (Continuing sid prompt d c b instruction) /\
    Substring ("Task: " ++ DQ ++ slice0 100 "Use Express" ++ "..." ++ DQ ++ NL) prompt.
Proof.
  assert (Hc : Consistent (mkState 1 0.4 ["Use Express"] "Use Express" false)).
  { repeat split. repeat constructor. discriminate. }
  split; [reflexivity|]. split; [exact Hc|].
  do 6 eexists. split; [vm_compute; reflexivity|].
  destruct (refinement_prompt_quotes_first_response "g"
              (iterateRequest "s" "Add tests, confidence: 0.5" None)
              (sessionsSet noSessions "s" (mkState 1 0.4 ["Use Express"] "Use Express" false))
              (mkState 1 0.4 ["Use Express"] "Use Express" false)
              _ _ _ _ _ _ eq_refl Hc ltac:(vm_compute; reflexivity))
    as (resp & Hr & _ & Hsub).
  exact Hsub.
Defined.

Lemma session_store_follows_engine_witness :
  let turns := [mkTurn "g1" "Use Express" None;
                mkTurn "g2" "Add tests, confidence: 0.9" None] in
  "s" <> "" /\ ~ Blank "Build a REST API" /\
  Forall (fun t => turnResponse t <> "") turns /\
  sessionsGet
    (handleAll (("g0", startRequest "s" "Build a REST API" None)
                  :: map (toIncoming "s") turns) noSessions) "s"
  = Some (runCalls (map (toCall "Build a REST API") turns) initialState).
Proof.
  assert (H1 : "s" <> "") by discriminate.
  assert (H2 : ~ Blank "Build a REST API") by (intros H; discriminate H).
  assert (H3 : Forall (fun t => turnResponse t <> "")
                 [mkTurn "g1" "Use Express" None;
                  mkTurn "g2" "Add tests, confidence: 0.9" None]).
  { repeat constructor; discriminate. }
  split; [exact H1|]. split; [exact H2|]. split; [exact H3|].
  exact (session_store_follows_engine noSessions "g0" "s" "Build a REST API"
           "Build a REST API" None _ H1 H2 H3).
Defined.

End ServerProperties.
